(** * Agent Pulse liveness filter: a shallow embedding of [pulse_filter.py]

    The development follows the module top-down in the order of the source:
    threshold parsing, address normalisation and extraction, the HTTP fetch
    with retry and backoff, the status normaliser, the recency decision and
    the batch filter.

    Conventions.
    - A Python [str] is a [string]; the model covers ASCII text, which is
      what addresses, thresholds and URLs are made of.
    - A Python [int] is a [Z]; a Python [float] is an IEEE-754 binary64 value,
      a [spec_float] used at precision 53 and exponent bound 1024, so that
      rounding, overflow, signed zeros and NaN behave as in the interpreter.
    - A raised exception is the [Raise] branch of [result]; code that talks to
      the network threads a [world] through a state-and-exception monad. *)

From Stdlib Require Import ZArith String Ascii List Bool Lia.
From Stdlib Require Import Floats.SpecFloat.
From Stdlib Require Import DecimalString.
Import ListNotations.

Open Scope string_scope.
Open Scope Z_scope.

(** ** Exceptions and results *)

Inductive exn : Type :=
| ValueError (msg : string)
| OverflowError (msg : string)
| TypeError (msg : string)
| AttributeError (msg : string)
| AgentPulseError (msg : string)
| OtherException (name : string).

Inductive result (A : Type) : Type :=
| Ok (a : A)
| Raise (e : exn).

Arguments Ok {A} a.
Arguments Raise {A} e.

Definition is_ok {A} (r : result A) : bool :=
  match r with Ok _ => true | Raise _ => false end.

Definition rbind {A B} (r : result A) (k : A -> result B) : result B :=
  match r with
  | Ok a => k a
  | Raise e => Raise e
  end.

(** [try: ... except Exception: v]. *)
Definition or_else {A} (r : result A) (v : A) : A :=
  match r with Ok a => a | Raise _ => v end.

(** ** Binary64 floats *)

Module F64.

Definition prec : Z := 53.
Definition emax : Z := 1024.

Definition t : Type := spec_float.

(** The nearest float to an integer, ties to even; infinite past the range. *)
Definition of_Z (z : Z) : t := binary_normalize prec emax z 0 false.

Definition mul : t -> t -> t := SFmul prec emax.
Definition div : t -> t -> t := SFdiv prec emax.
Definition leb : t -> t -> bool := SFleb.
Definition ltb : t -> t -> bool := SFltb.
Definition eqb : t -> t -> bool := SFeqb.

Definition zero : t := S754_zero false.

Definition is_finite (f : t) : bool :=
  match f with
  | S754_zero _ | S754_finite _ _ _ => true
  | _ => false
  end.

(** The nearest float to the decimal [n / 10^k], for [n >= 0]: the value
    of a literal written with the digits of [n] and [k] digits after the
    point. The quotient is rounded once, from the exact operands. *)
Definition of_decimal (n : Z) (k : nat) : t :=
  match n with
  | Zpos p => div (S754_finite false p 0)
                  (S754_finite false (Z.to_pos (10 ^ Z.of_nat k)) 0)
  | _ => zero
  end.

End F64.

(** [float(n)] for an [int]. *)
Definition float_of_int (z : Z) : result F64.t :=
  let f := F64.of_Z z in
  if F64.is_finite f then Ok f
  else Raise (OverflowError "int too large to convert to float").

(** [int(f)] for a [float]: truncation toward zero. *)
Definition int_of_float (f : F64.t) : result Z :=
  match f with
  | S754_zero _ => Ok 0
  | S754_finite s m e =>
      let a := match e with
               | Zneg k => Z.shiftr (Zpos m) (Zpos k)
               | _ => Z.shiftl (Zpos m) e
               end in
      Ok (if s then - a else a)
  | S754_infinity _ =>
      Raise (OverflowError "cannot convert float infinity to integer")
  | S754_nan => Raise (ValueError "cannot convert float NaN to integer")
  end.

(** ** Text helpers: the [str] methods the module calls *)

Definition code (c : ascii) : N := N_of_ascii c.

(** [str.isspace] on one ASCII character: tab, the line breaks, the four
    separators 0x1c..0x1f and the blank. The class [\s] of [re] on [str]
    patterns is the same set. *)
Definition is_space (c : ascii) : bool :=
  let n := code c in
  ((9 <=? n) && (n <=? 13) || (28 <=? n) && (n <=? 32))%N.

Definition is_digit (c : ascii) : bool :=
  let n := code c in ((48 <=? n) && (n <=? 57))%N.

Definition lower_char (c : ascii) : ascii :=
  let n := code c in
  if ((65 <=? n) && (n <=? 90))%N then ascii_of_N (n + 32) else c.

Fixpoint lower (s : string) : string :=
  match s with
  | EmptyString => EmptyString
  | String c r => String (lower_char c) (lower r)
  end.

Fixpoint all_chars (p : ascii -> bool) (s : string) : bool :=
  match s with
  | EmptyString => true
  | String c r => p c && all_chars p r
  end.

(** Drops the longest prefix of characters satisfying [p]. *)
Fixpoint lstrip_by (p : ascii -> bool) (s : string) : string :=
  match s with
  | EmptyString => EmptyString
  | String c r => if p c then lstrip_by p r else s
  end.

(** Drops the longest suffix of characters satisfying [p]. *)
Fixpoint rstrip_by (p : ascii -> bool) (s : string) : string :=
  match s with
  | EmptyString => EmptyString
  | String c r =>
      match rstrip_by p r with
      | EmptyString => if p c then EmptyString else String c EmptyString
      | r' => String c r'
      end
  end.

Definition strip (s : string) : string := rstrip_by is_space (lstrip_by is_space s).

Definition is_empty (s : string) : bool :=
  match s with EmptyString => true | _ => false end.

(** [s[:n]]. *)
Fixpoint str_take (n : nat) (s : string) : string :=
  match n, s with
  | S n', String c r => String c (str_take n' r)
  | _, _ => EmptyString
  end.

(** [s[n:]]. *)
Fixpoint str_drop (n : nat) (s : string) : string :=
  match n, s with
  | S n', String _ r => str_drop n' r
  | _, _ => s
  end.

Definition startswith (s p : string) : bool := String.prefix p s.

(** The longest prefix of characters satisfying [p], and what follows it. *)
Fixpoint span (p : ascii -> bool) (s : string) : string * string :=
  match s with
  | EmptyString => (EmptyString, EmptyString)
  | String c r =>
      if p c then let (a, b) := span p r in (String c a, b)
      else (EmptyString, s)
  end.

Definition digit_value (c : ascii) : Z := Z.of_N (code c) - 48.

(** The number written by a run of decimal digits, most significant first. *)
Fixpoint digits_value_from (acc : Z) (s : string) : Z :=
  match s with
  | EmptyString => acc
  | String c r => digits_value_from (10 * acc + digit_value c) r
  end.

Definition digits_value (s : string) : Z := digits_value_from 0 s.

(** The decimal text of an integer, as [str(n)] and f-strings print it. *)
Definition str_of_Z (z : Z) : string := NilZero.string_of_int (Z.to_int z).

(** ** Python values

    The values [json.loads] produces, which are also the values a caller can
    pass as a threshold. A [dict] keeps its items in insertion order. *)

#[warnings="-register-all"]
Inductive pyval : Type :=
| PyNone
| PyBool (b : bool)
| PyInt (z : Z)
| PyFloat (f : F64.t)
| PyStr (s : string)
| PyList (l : list pyval)
| PyDict (d : list (string * pyval)).

Definition pydict : Type := list (string * pyval).

(** [d.get(key)]: the value bound to [key], [None] when there is none. *)
Fixpoint dict_get (d : pydict) (key : string) : pyval :=
  match d with
  | [] => PyNone
  | (k, v) :: d' => if String.eqb k key then v else dict_get d' key
  end.

Definition is_None (v : pyval) : bool :=
  match v with PyNone => true | _ => false end.

(** [repr(type(v))]. *)
Definition type_repr (v : pyval) : string :=
  match v with
  | PyNone => "<class 'NoneType'>"
  | PyBool _ => "<class 'bool'>"
  | PyInt _ => "<class 'int'>"
  | PyFloat _ => "<class 'float'>"
  | PyStr _ => "<class 'str'>"
  | PyList _ => "<class 'list'>"
  | PyDict _ => "<class 'dict'>"
  end.

(** [bool(v)]: the truth value of an object. *)
Definition py_bool (v : pyval) : bool :=
  match v with
  | PyNone => false
  | PyBool b => b
  | PyInt z => negb (Z.eqb z 0)
  | PyFloat f => negb (F64.eqb f F64.zero)
  | PyStr s => negb (is_empty s)
  | PyList l => match l with [] => false | _ => true end
  | PyDict d => match d with [] => false | _ => true end
  end.

(** The digits of an integer literal given to [int]: decimal digits, single
    underscores allowed between two digits. [prev] tells whether the character
    before was a digit. *)
Fixpoint int_digits (prev : bool) (acc : Z) (s : string) : option Z :=
  match s with
  | EmptyString => if prev then Some acc else None
  | String c r =>
      if is_digit c then int_digits true (10 * acc + digit_value c) r
      else if (Ascii.eqb c "_" && prev)%bool then int_digits false acc r
      else None
  end.

(** The whitespace [int] skips around an ASCII literal: tab, the line
    breaks and the blank. The separators 0x1c..0x1f, which [str.strip]
    removes, are not part of it. *)
Definition is_c_space (c : ascii) : bool :=
  let n := code c in ((9 <=? n) && (n <=? 13) || (n =? 32))%N.

Fixpoint count_chars (p : ascii -> bool) (s : string) : nat :=
  match s with
  | EmptyString => O
  | String c r => if p c then S (count_chars p r) else count_chars p r
  end.

(** The most digits [int] converts from text,
    [sys.int_info.default_max_str_digits]. *)
Definition max_str_digits : nat := 4300.

(** [int(s)] for a [str] in base 10: whitespace around the literal is
    skipped, one sign is allowed, and a literal of more than 4300 digits is
    refused. *)
Definition int_of_str (s : string) : result Z :=
  let t := rstrip_by is_c_space (lstrip_by is_c_space s) in
  let parsed :=
    match t with
    | String "-" r => option_map Z.opp (int_digits false 0 r)
    | String "+" r => int_digits false 0 r
    | _ => int_digits false 0 t
    end in
  match parsed with
  | Some z =>
      if (max_str_digits <? count_chars is_digit t)%nat
      then Raise (ValueError "Exceeds the limit (4300) for integer string conversion")
      else Ok z
  | None => Raise (ValueError "invalid literal for int() with base 10")
  end.

(** [int(v)]. *)
Definition py_int (v : pyval) : result Z :=
  match v with
  | PyBool b => Ok (Z.b2z b)
  | PyInt z => Ok z
  | PyFloat f => int_of_float f
  | PyStr s => int_of_str s
  | PyNone | PyList _ | PyDict _ =>
      Raise (TypeError "int() argument must be a string, a bytes-like object or a real number")
  end.

(** ** Regular expressions

    The fragment of [re] the module uses: character classes, sequence,
    option and the two repetitions. [re_match r s] says that [r] matches the
    whole of [s]. *)

Inductive regex : Type :=
| Chr (p : ascii -> bool)
| Seq (r1 r2 : regex)
| Opt (r : regex)
| Plus (r : regex)
| Star (r : regex).

Inductive re_match : regex -> string -> Prop :=
| M_chr p c : p c = true -> re_match (Chr p) (String c EmptyString)
| M_seq r1 r2 s1 s2 :
    re_match r1 s1 -> re_match r2 s2 -> re_match (Seq r1 r2) (s1 ++ s2)
| M_opt_none r : re_match (Opt r) EmptyString
| M_opt_some r s : re_match r s -> re_match (Opt r) s
| M_plus_one r s : re_match r s -> re_match (Plus r) s
| M_plus_more r s1 s2 :
    re_match r s1 -> re_match (Plus r) s2 -> re_match (Plus r) (s1 ++ s2)
| M_star_nil r : re_match (Star r) EmptyString
| M_star_more r s1 s2 :
    re_match r s1 -> re_match (Star r) s2 -> re_match (Star r) (s1 ++ s2).

Definition is_dot (c : ascii) : bool := Ascii.eqb c ".".

(** The class [[smhd]]. *)
Definition is_unit (c : ascii) : bool :=
  (Ascii.eqb c "s" || Ascii.eqb c "m" || Ascii.eqb c "h" || Ascii.eqb c "d")%bool.

(** The group [value]: [\d+(?:\.\d+)?]. *)
Definition value_re : regex :=
  Seq (Plus (Chr is_digit)) (Opt (Seq (Chr is_dot) (Plus (Chr is_digit)))).

(** The pattern of [parse_threshold] between its anchors:
    [(?P<value>\d+(?:\.\d+)?)\s*(?P<unit>[smhd])]. *)
Definition threshold_re : regex :=
  Seq value_re (Seq (Star (Chr is_space)) (Chr is_unit)).

(** The anchor [$]: the end of the text, or just before a final line feed. *)
Definition at_end (s : string) : bool :=
  match s with
  | EmptyString => true
  | String c EmptyString => Ascii.eqb c "010"
  | _ => false
  end.

(** The group [value], scanned from the left: the digits, then the point
    and its digits when both are there. Returns the group and what follows. *)
Definition scan_value (s : string) : option (string * string) :=
  let (ip, r1) := span is_digit s in
  if is_empty ip then None
  else
    match r1 with
    | String c r =>
        if is_dot c
        then let (fp, r') := span is_digit r in
             if is_empty fp then Some (ip, r1) else Some (ip ++ String c fp, r')
        else Some (ip, r1)
    | EmptyString => Some (ip, r1)
    end.

(** The rest of the pattern, [\s*(?P<unit>[smhd])$]. *)
Definition scan_unit (s : string) : option ascii :=
  let (_, r3) := span is_space s in
  match r3 with
  | String u rest => if (is_unit u && at_end rest)%bool then Some u else None
  | EmptyString => None
  end.

(** [re.match] with the pattern of [parse_threshold], returning the groups
    [value] and [unit]. Every repetition of the pattern is followed by a
    character outside its class, so the greedy left-to-right scan the engine
    starts with is also its only way to match. *)
Definition match_threshold (s : string) : option (string * ascii) :=
  match scan_value s with
  | Some (value, r2) => option_map (pair value) (scan_unit r2)
  | None => None
  end.

(** [float(text)] for the texts the group [value] can hold: digits, then
    possibly a point and more digits. The result is the float nearest to the
    decimal number written. *)
Definition float_of_decimal_text (text : string) : F64.t :=
  let (ip, r) := span is_digit text in
  match r with
  | String _ fp =>
      F64.of_decimal (digits_value (ip ++ fp)) (String.length fp)
  | EmptyString => F64.of_decimal (digits_value ip) 0
  end.

(** ** [parse_threshold] *)

Definition msg_nonpositive : string := "threshold must be > 0".

Definition dquote : string := String (ascii_of_nat 34) EmptyString.

Definition msg_bad_pattern : string :=
  "threshold must look like " ++ dquote ++ "24h" ++ dquote ++ ", "
  ++ dquote ++ "15m" ++ dquote ++ ", " ++ dquote ++ "2d" ++ dquote
  ++ ", or a numeric hour value".

Definition float_3600 : F64.t := F64.of_Z 3600.
Definition float_60 : F64.t := F64.of_Z 60.
Definition float_24 : F64.t := F64.of_Z 24.

(** The four [if unit == ...] branches; the last line is the one the source
    marks unreachable. *)
Definition convert_unit (value : F64.t) (unit : ascii) : result F64.t :=
  if Ascii.eqb unit "s" then Ok (F64.div value float_3600)
  else if Ascii.eqb unit "m" then Ok (F64.div value float_60)
  else if Ascii.eqb unit "h" then Ok value
  else if Ascii.eqb unit "d" then Ok (F64.mul value float_24)
  else Raise (ValueError ("Unsupported unit: " ++ String unit EmptyString)).

(** The branch [isinstance(threshold, (int, float))] for an [int]. *)
Definition parse_threshold_int (z : Z) : result F64.t :=
  if z <=? 0 then Raise (ValueError msg_nonpositive) else float_of_int z.

Definition parse_threshold_str (threshold : string) : result F64.t :=
  let s := lower (strip threshold) in
  match match_threshold s with
  | None => Raise (ValueError msg_bad_pattern)
  | Some (text, unit) =>
      let value := float_of_decimal_text text in
      if F64.leb value F64.zero then Raise (ValueError msg_nonpositive)
      else convert_unit value unit
  end.

Definition parse_threshold (threshold : pyval) : result F64.t :=
  match threshold with
  | PyBool b => parse_threshold_int (Z.b2z b)
  | PyInt z => parse_threshold_int z
  | PyFloat f =>
      if F64.leb f F64.zero then Raise (ValueError msg_nonpositive) else Ok f
  | PyStr s => parse_threshold_str s
  | PyNone | PyList _ | PyDict _ =>
      Raise (ValueError ("Unsupported threshold type: " ++ type_repr threshold))
  end.

(** ** Addresses *)

Definition _normalize_address (address : string) : result string :=
  let address := strip address in
  if is_empty address then Raise (ValueError "Empty address")
  else if (startswith address "0x" || startswith address "0X")%bool
       then Ok ("0x" ++ lower (str_drop 2 address))
       else Ok (lower address).

(** What the extractor can see of an agent: a string, a [dict], or any other
    object, given by its attributes. *)
Inductive agent : Type :=
| AgentStr (s : string)
| AgentDict (d : pydict)
| AgentObj (attrs : pydict).

Definition address_keys : list string :=
  ["address"; "wallet_address"; "walletAddress"; "agent_address"; "agentAddress"].

(** One of the two probing loops: the first name, in order, bound to a string
    that is not blank. *)
Fixpoint probe (lookup : string -> pyval) (names : list string) : option string :=
  match names with
  | [] => None
  | name :: rest =>
      match lookup name with
      | PyStr value =>
          if negb (is_empty (strip value)) then Some value else probe lookup rest
      | _ => probe lookup rest
      end
  end.

(** [getattr(agent, attr, None)]; a plain [dict] has none of the probed
    attributes. *)
Definition agent_getattr (a : agent) (attr : string) : pyval :=
  match a with
  | AgentObj attrs => dict_get attrs attr
  | _ => PyNone
  end.

Definition msg_no_address : string :=
  "Could not extract an address from agent. Provide a string address, a dict with an "
  ++ "'address' key, or an object with .address/.wallet_address.".

Definition probe_attributes (a : agent) : result string :=
  match probe (agent_getattr a) address_keys with
  | Some value => _normalize_address value
  | None => Raise (ValueError msg_no_address)
  end.

Definition _get_agent_address (a : agent) : result string :=
  match a with
  | AgentStr s => _normalize_address s
  | AgentDict d =>
      match probe (dict_get d) address_keys with
      | Some value => _normalize_address value
      | None => probe_attributes a
      end
  | AgentObj _ => probe_attributes a
  end.

(** ** The network

    One call of [urlopen] followed by reading and decoding the body ends in
    one of four ways. *)

Inductive attempt_outcome : Type :=
| Responded (payload : pyval)
    (** a 2xx answer whose body decoded as UTF-8 and parsed as JSON *)
| HTTPFailure (text : string) (status : option Z) (body : option string)
    (** [HTTPError]: its [str], its [code] if it has one, and its body as
        [e.read().decode] gives it, [None] when that raises *)
| URLFailure (text : string)
    (** [URLError] or [TimeoutError], with its [str] *)
| Crashed (e : exn).
    (** any other exception leaving the [try] block, such as a body that is
        not JSON *)

Inductive event : Type :=
| Requested (url : string)
| Slept (secs : F64.t).

(** The server answers each request from the history so far; [log] is that
    history, oldest first; [clock] is what [int(time.time())] reads. *)
Record world : Type := mkWorld {
  server : list event -> string -> attempt_outcome;
  clock : Z;
  log : list event
}.

Definition record (e : event) (w : world) : world :=
  mkWorld (server w) (clock w) (log w ++ [e])%list.

(** Computations that act on the world and may raise. *)
Definition M (A : Type) : Type := world -> result A * world.

Definition ret {A} (a : A) : M A := fun w => (Ok a, w).
Definition raise {A} (e : exn) : M A := fun w => (Raise e, w).
Definition lift {A} (r : result A) : M A := fun w => (r, w).

Definition bind {A B} (m : M A) (k : A -> M B) : M B :=
  fun w =>
    match m w with
    | (Ok a, w') => k a w'
    | (Raise e, w') => (Raise e, w')
    end.

Notation "x <- m ;; k" := (bind m (fun x => k))
  (at level 61, m at next level, right associativity).

(** [urllib.request.urlopen] and the two lines under it. *)
Definition urlopen (url : string) : world -> attempt_outcome * world :=
  fun w => (server w (log w) url, record (Requested url) w).

Definition float_1e9 : F64.t := F64.of_Z 1000000000.
Definition float_2p63 : F64.t := F64.of_Z (2 ^ 63).

(** [time.sleep(secs)]: the delay is converted to nanoseconds on 64 bits,
    then refused when negative. *)
Definition time_sleep (secs : F64.t) : M unit :=
  match secs with
  | S754_nan => raise (ValueError "Invalid value NaN (not a number)")
  | _ =>
      let ns := F64.mul secs float_1e9 in
      if negb (F64.leb (SFopp float_2p63) ns && F64.ltb ns float_2p63)
      then raise (OverflowError "timestamp too large to convert to C _PyTime_t")
      else if F64.ltb secs F64.zero
      then raise (ValueError "sleep length must be non-negative")
      else fun w => (Ok tt, record (Slept secs) w)
  end.

(** [backoff_secs * (2**attempt)]. *)
Definition sleep_for (backoff_secs : F64.t) (attempt : Z) : result F64.t :=
  rbind (float_of_int (2 ^ attempt)) (fun p => Ok (F64.mul backoff_secs p)).

Definition retryable (status : option Z) : bool :=
  match status with
  | Some c => ((c =? 408)%Z || (c =? 429)%Z || ((500 <=? c) && (c <=? 599)))%bool
  | None => false
  end.

(** How an f-string prints [status]. *)
Definition str_of_status (status : option Z) : string :=
  match status with Some c => str_of_Z c | None => "None" end.

Definition http_error_message (url : string) (status : option Z) (body : string) : string :=
  "Agent Pulse API HTTP " ++ str_of_status status ++ " for " ++ url
  ++ ". Body: " ++ str_take 200 body.

Definition request_failed_message (url text : string) : string :=
  "Agent Pulse API request failed for " ++ url ++ ": " ++ text.

(** The body of [for attempt in range(max_retries + 1)], from [attempt] on
    with [remaining] iterations left; after the last one comes the final
    [raise] of the function. *)
Fixpoint attempts (url : string) (max_retries : Z) (backoff_secs : F64.t)
    (remaining : nat) (attempt : Z) (last_err : option string) : M pyval :=
  match remaining with
  | O =>
      raise (AgentPulseError
               (request_failed_message url
                  (match last_err with Some t => t | None => "None" end)))
  | S remaining' =>
      let backoff_and_continue (text : string) : M pyval :=
        d <- lift (sleep_for backoff_secs attempt) ;;
        _ <- time_sleep d ;;
        attempts url max_retries backoff_secs remaining' (attempt + 1) (Some text) in
      fun w =>
        let (outcome, w1) := urlopen url w in
        match outcome with
        | Responded payload => (Ok payload, w1)
        | HTTPFailure text status body =>
            if ((attempt >=? max_retries) || negb (retryable status))%bool
            then (Raise (AgentPulseError
                           (http_error_message url status
                              (match body with Some b => b | None => "" end))), w1)
            else backoff_and_continue text w1
        | URLFailure text =>
            if attempt >=? max_retries
            then (Raise (AgentPulseError (request_failed_message url text)), w1)
            else backoff_and_continue text w1
        | Crashed e => (Raise e, w1)
        end
  end.

(** The arguments [timeout_secs] and [headers] are handed to [urlopen] as they
    are and decide nothing here; what [urlopen] makes of them is part of the
    server's answer. *)
Definition _http_get_json (url : string) (max_retries : Z) (backoff_secs : F64.t)
  : M pyval :=
  attempts url max_retries backoff_secs (Z.to_nat (max_retries + 1)) 0 None.

(** ** Status *)

Record AgentPulseStatus : Type := mkStatus {
  address : string;
  alive : option bool;
  last_pulse_timestamp : option Z;
  streak_count : option Z;
  raw : pydict
}.

(** [d.get(first)], and [d.get(second)] when that is [None]. *)
Definition get_either (d : pydict) (first second : string) : pyval :=
  let v := dict_get d first in
  if is_None v then dict_get d second else v.

Definition ms_bound : Z := 10000000000.

(** The [try] block that turns the raw timestamp into seconds. *)
Definition normalize_timestamp (last_pulse : pyval) : option Z :=
  if is_None last_pulse then None
  else
    or_else
      (rbind (py_int last_pulse)
         (fun lp => Ok (Some (if lp >? ms_bound then lp / 1000 else lp))))
      None.

Definition normalize_streak (streak : pyval) : option Z :=
  or_else
    (if is_None streak then Ok None
     else rbind (py_int streak) (fun n => Ok (Some n)))
    None.

(** The part of [get_agent_status] below the fetch. [payload.get] exists
    only on a [dict]. *)
Definition status_of_payload (norm : string) (payload : pyval) : result AgentPulseStatus :=
  match payload with
  | PyDict d =>
      let alive := get_either d "alive" "isAlive" in
      let last_pulse := get_either d "lastPulse" "lastPulseTimestamp" in
      let streak := get_either d "streakCount" "streak" in
      let last_pulse_ts := normalize_timestamp last_pulse in
      let streak_count := normalize_streak streak in
      Ok (mkStatus norm
            (if is_None alive then None else Some (py_bool alive))
            last_pulse_ts streak_count d)
  | _ => Raise (AttributeError ("object has no attribute 'get': " ++ type_repr payload))
  end.

Definition is_slash (c : ascii) : bool := Ascii.eqb c "/".

Definition status_url (api_base_url norm : string) : string :=
  rstrip_by is_slash api_base_url ++ "/api/v2/agent/" ++ norm ++ "/alive".

Definition get_agent_status (address api_base_url : string) (max_retries : Z)
    (backoff_secs : F64.t) : M AgentPulseStatus :=
  norm <- lift (_normalize_address address) ;;
  payload <- _http_get_json (status_url api_base_url norm) max_retries backoff_secs ;;
  lift (status_of_payload norm payload).

(** ** Recency and the batch filter *)

Definition _is_recent (status : AgentPulseStatus) (now_ts threshold_seconds : Z) : bool :=
  match last_pulse_timestamp status with
  | None => match alive status with Some b => b | None => false end
  | Some ts =>
      let staleness := Z.max 0 (now_ts - ts) in
      staleness <=? threshold_seconds
  end.

(** [threshold_hours <= 0] for the numbers a caller may pass. *)
Definition threshold_nonpositive (threshold_hours : pyval) : result bool :=
  match threshold_hours with
  | PyBool b => Ok (Z.b2z b <=? 0)
  | PyInt z => Ok (z <=? 0)
  | PyFloat f => Ok (F64.leb f F64.zero)
  | _ => Raise (TypeError ("'<=' not supported between instances of "
                           ++ type_repr threshold_hours ++ " and 'int'"))
  end.

(** [float(threshold_hours)]. *)
Definition py_float_of_number (v : pyval) : result F64.t :=
  match v with
  | PyBool b => float_of_int (Z.b2z b)
  | PyInt z => float_of_int z
  | PyFloat f => Ok f
  | _ => Raise (TypeError "float() argument must be a string or a real number")
  end.

(** [int(float(threshold_hours) * 3600)]. *)
Definition threshold_window (threshold_hours : pyval) : result Z :=
  rbind (py_float_of_number threshold_hours)
        (fun h => int_of_float (F64.mul h float_3600)).

Section Filter.

(** The agents are objects of any kind; [shape] is what the default
    extractor can see of one. *)
Context {Obj : Type}.
Variable shape : Obj -> agent.

Variable api_base_url : string.
Variable max_retries : Z.
Variable backoff_secs : F64.t.
Variable address_getter : option (Obj -> result string).
Variable drop_on_error : bool.

(** The body of the [try] in the loop, up to the recency test. *)
Definition check_agent (now_ts threshold_seconds : Z) (a : Obj) : M bool :=
  addr <- lift (match address_getter with
                | Some getter => getter a
                | None => _get_agent_address (shape a)
                end) ;;
  status <- get_agent_status addr api_base_url max_retries backoff_secs ;;
  ret (_is_recent status now_ts threshold_seconds).

(** [for agent in agents], with [alive_agents] as built so far. *)
Fixpoint filter_loop (now_ts threshold_seconds : Z) (agents alive_agents : list Obj)
  : M (list Obj) :=
  match agents with
  | [] => ret alive_agents
  | a :: rest =>
      fun w =>
        match check_agent now_ts threshold_seconds a w with
        | (Ok true, w') =>
            filter_loop now_ts threshold_seconds rest (alive_agents ++ [a])%list w'
        | (Ok false, w') =>
            filter_loop now_ts threshold_seconds rest alive_agents w'
        | (Raise e, w') =>
            if drop_on_error
            then filter_loop now_ts threshold_seconds rest alive_agents w'
            else (Raise e, w')
        end
  end.

Definition filter_alive_agents (agents : list Obj) (threshold_hours : pyval)
  : M (list Obj) :=
  nonpos <- lift (threshold_nonpositive threshold_hours) ;;
  if (nonpos : bool) then raise (ValueError "threshold_hours must be > 0")
  else
    fun w =>
      let now_ts := clock w in
      (threshold_seconds <- lift (threshold_window threshold_hours) ;;
       filter_loop now_ts threshold_seconds agents []) w.

Definition filter_alive (agents : list Obj) (threshold : pyval) : M (list Obj) :=
  threshold_hours <- lift (parse_threshold threshold) ;;
  filter_alive_agents agents (PyFloat threshold_hours).

End Filter.

(** ** Sample worlds and values, used to run the definitions *)

(** A server that always answers with the same JSON document. *)
Definition steady_world (payload : pyval) : world :=
  mkWorld (fun _ _ => Responded payload) 1000 [].

(** The number of requests in a history. *)
Fixpoint requests (l : list event) : nat :=
  match l with
  | [] => 0%nat
  | Requested _ :: l' => S (requests l')
  | Slept _ :: l' => requests l'
  end.

(** A server that plays a script: the n-th request gets the n-th outcome,
    and [fallback] once the script is over. *)
Definition scripted_world (script : list attempt_outcome) (fallback : attempt_outcome)
  : world :=
  mkWorld (fun history _ => nth (requests history) script fallback) 1000 [].

Definition float_half : F64.t := F64.of_decimal 5 1.
Definition float_one : F64.t := F64.of_Z 1.

Definition demo_url : string := "https://pulse.example/api/v2/agent/0xab/alive".

Definition demo_payload : pyval :=
  PyDict [("alive", PyBool true); ("lastPulse", PyInt 990); ("streakCount", PyInt 5)].

Definition float_minus_half : F64.t := SFopp float_half.

(** A server that answers 503 once, then answers. *)
Definition outage_world : world :=
  scripted_world [HTTPFailure "HTTP Error 503" (Some 503) (Some "busy")]
    (Responded demo_payload).

(** [c * n]: the character [c], [n] times. *)
Fixpoint str_repeat (c : ascii) (n : nat) : string :=
  match n with
  | O => EmptyString
  | S n' => String c (str_repeat c n')
  end.

(** A server that answers 429, then times out, then answers. *)
Definition flaky_world : world :=
  scripted_world [HTTPFailure "HTTP Error 429" (Some 429) (Some "slow down");
                  URLFailure "timed out";
                  Responded demo_payload] (URLFailure "refused").

(** ** Vocabulary of the statements *)

Fixpoint last_char (s : string) : option ascii :=
  match s with
  | EmptyString => None
  | String c r =>
      match last_char r with
      | Some d => Some d
      | None => Some c
      end
  end.

Definition first_char (s : string) : option ascii :=
  match s with
  | EmptyString => None
  | String c _ => Some c
  end.

Definition fails (p : ascii -> bool) (c : option ascii) : bool :=
  match c with
  | Some a => negb (p a)
  | None => true
  end.

(** A text with no whitespace at either end. *)
Definition trimmed (s : string) : bool :=
  (fails is_space (first_char s) && fails is_space (last_char s))%bool.

Definition blank (s : string) : bool := all_chars is_space s.

(** A run of one or more decimal digits. *)
Definition digit_run (s : string) : bool :=
  (negb (is_empty s) && all_chars is_digit s)%bool.

(** What the group [value] can hold. *)
Definition value_text (t : string) : Prop :=
  exists ip,
    digit_run ip = true
    /\ (t = ip \/ exists fp, digit_run fp = true /\ t = (ip ++ String "." fp)%string).

(** The text the pattern is matched against. *)
Definition threshold_text (s : string) : string := lower (strip s).

(** The threshold [s] reads as the number [text] followed by the unit [u],
    with possibly some whitespace in between. *)
Definition parses_as (s text : string) (u : ascii) : Prop :=
  exists ws,
    threshold_text s = (text ++ ws ++ String u "")%string
    /\ value_text text /\ blank ws = true /\ is_unit u = true.

(** The inputs a pattern turns down: a text that does not match, a number
    that is not positive, or a value of another type. *)
Definition rejects (pattern : regex) (v : pyval) : Prop :=
  match v with
  | PyStr s =>
      ~ re_match pattern (threshold_text s)
      \/ exists text u,
            parses_as s text u
            /\ F64.leb (float_of_decimal_text text) F64.zero = true
  | PyBool b => Z.b2z b <= 0
  | PyInt z => z <= 0
  | PyFloat f => F64.leb f F64.zero = true
  | PyNone | PyList _ | PyDict _ => True
  end.

(** The pattern as the specification writes it, [^\d+(\.\d+)?[smhd]$]: no
    whitespace between the number and the unit. *)
Definition spec_threshold_re : regex := Seq value_re (Chr is_unit).

(** The characters a pattern can consume. *)
Fixpoint alphabet (r : regex) (c : ascii) : bool :=
  match r with
  | Chr p => p c
  | Seq r1 r2 => (alphabet r1 c || alphabet r2 c)%bool
  | Opt r' | Plus r' | Star r' => alphabet r' c
  end.

(** The world after more events. *)
Definition extend (w : world) (l : list event) : world :=
  mkWorld (server w) (clock w) (log w ++ l)%list.

(** The failures the fetch answers with another attempt, when it has one
    left: a retryable status, or an error below HTTP. *)
Definition retried (o : attempt_outcome) : bool :=
  match o with
  | HTTPFailure _ status _ => retryable status
  | URLFailure _ => true
  | Responded _ | Crashed _ => false
  end.

(** The wait after the failed attempt number [attempt], counted from 0. *)
Definition delay (backoff_secs : F64.t) (attempt : nat) : F64.t :=
  F64.mul backoff_secs (F64.of_Z (2 ^ Z.of_nat attempt)).

(** The delays [time.sleep] takes without raising. *)
Definition sleep_accepts (secs : F64.t) : bool :=
  match secs with
  | S754_nan => false
  | _ =>
      let ns := F64.mul secs float_1e9 in
      (F64.leb (SFopp float_2p63) ns && F64.ltb ns float_2p63
       && negb (F64.ltb secs F64.zero))%bool
  end.

(** The wait after attempt [attempt] can be computed and slept. *)
Definition delay_ok (backoff_secs : F64.t) (attempt : nat) : bool :=
  (F64.is_finite (F64.of_Z (2 ^ Z.of_nat attempt))
   && sleep_accepts (delay backoff_secs attempt))%bool.

(** What [k] failed attempts followed by their waits leave in the log, the
    first of them being attempt number [first]. *)
Fixpoint retry_log_from (url : string) (backoff_secs : F64.t) (first k : nat)
  : list event :=
  match k with
  | O => []
  | S k' =>
      Requested url :: Slept (delay backoff_secs first)
        :: retry_log_from url backoff_secs (S first) k'
  end.

Definition retry_log (url : string) (backoff_secs : F64.t) (k : nat) : list event :=
  retry_log_from url backoff_secs 0 k.

(** The sleeps of a log, in order. *)
Fixpoint sleeps (l : list event) : list F64.t :=
  match l with
  | [] => []
  | Slept d :: l' => d :: sleeps l'
  | Requested _ :: l' => sleeps l'
  end.

(** The verdicts of a batch, when every agent is checked whatever happened
    to the ones before: each check runs in the world the previous one left. *)
Fixpoint run_checks {Obj : Type} (check : Obj -> M bool) (agents : list Obj)
    (w : world) : list (result bool) * world :=
  match agents with
  | [] => ([], w)
  | a :: rest =>
      let (v, w1) := check a w in
      let (vs, w2) := run_checks check rest w1 in
      (v :: vs, w2)
  end.

(** The agents whose verdict is [Ok true], in the order of the input. *)
Fixpoint select {Obj : Type} (agents : list Obj) (verdicts : list (result bool))
  : list Obj :=
  match agents, verdicts with
  | a :: rest, Ok true :: vs => a :: select rest vs
  | _ :: rest, _ :: vs => select rest vs
  | _, _ => []
  end.

(** [l1] is [l2] with some elements left out. *)
Inductive subseq {A : Type} : list A -> list A -> Prop :=
| subseq_nil : subseq [] []
| subseq_skip l1 l2 a : subseq l1 l2 -> subseq l1 (a :: l2)
| subseq_keep l1 l2 a : subseq l1 l2 -> subseq (a :: l1) (a :: l2).

(** Two agents given by their address, and a server that knows the first
    as alive ten seconds ago and answers 404 for the second. *)
Definition two_agents : list agent :=
  [AgentStr "0xAA"; AgentDict [("address", PyStr "0xBB")]].

Definition registry_world : world :=
  mkWorld
    (fun _ url =>
       if String.eqb url "https://pulse.example/api/v2/agent/0xaa/alive"
       then Responded (PyDict [("alive", PyBool true); ("lastPulse", PyInt 990);
                               ("streakCount", PyInt 5)])
       else HTTPFailure "HTTP Error 404" (Some 404) (Some "unknown agent"))
    1000 [].

(** A value the extractor takes as an address: a string that is not blank. *)
Definition usable (v : pyval) : bool :=
  match v with
  | PyStr value => negb (is_empty (strip value))
  | _ => false
  end.

(** A character [lower] leaves alone. *)
Definition is_lowered (c : ascii) : bool := Ascii.eqb (lower_char c) c.

(** An address in normal form: not empty, no whitespace at its ends, no
    upper-case letter. *)
Definition normal_address (t : string) : bool :=
  (negb (is_empty t) && trimmed t && all_chars is_lowered t)%bool.

(** Every request of a log goes to [url]. *)
Fixpoint only_url (url : string) (l : list event) : bool :=
  match l with
  | [] => true
  | Requested u :: l' => (String.eqb u url && only_url url l')%bool
  | Slept _ :: l' => only_url url l'
  end.

(** The server of a world always answers or fails the way HTTP or the
    network does: no attempt ends in another exception. *)
Definition never_crashes (w : world) : Prop :=
  forall history url e, server w history url <> Crashed e.

(** A world whose server answers with a JSON list. *)
Definition list_world : world := steady_world (PyList [PyInt 1]).

(** What the probing loops read of an agent that is not a string: the
    items of a [dict], the attributes of an object. *)
Definition agent_lookup (a : agent) : string -> pyval :=
  match a with
  | AgentDict d => dict_get d
  | AgentObj attrs => dict_get attrs
  | AgentStr _ => fun _ => PyNone
  end.

Definition is_str_agent (a : agent) : bool :=
  match a with AgentStr _ => true | _ => false end.

(** * Properties *)

(** ** The recency decision *)

(** C1. The recency decision holds exactly when: with a timestamp, the
    staleness [max 0 (now - timestamp)] is at most the threshold; without
    one, the [alive] flag is [True] (so a missing flag counts as not alive).
    A timestamp in the future has staleness zero, hence is recent under every
    threshold that is not negative. The four cases of the specification
    follow. *)
Theorem is_recent_exactly :
  (forall (st : AgentPulseStatus) (now thr : Z),
      _is_recent st now thr = true <->
      match last_pulse_timestamp st with
      | Some ts => Z.max 0 (now - ts) <= thr
      | None => alive st = Some true
      end)
  /\ (forall addr al sc rw (now : Z) (ahead thr : N),
         _is_recent (mkStatus addr al (Some (now + Z.of_N ahead)) sc rw)
                    now (Z.of_N thr) = true)
  /\ (forall addr al sc rw,
         _is_recent (mkStatus addr al (Some 500) sc rw) 1000 3600 = true
         /\ _is_recent (mkStatus addr al (Some 0) sc rw) 1000 100 = false
         /\ _is_recent (mkStatus addr (Some true) None sc rw) 1000 3600 = true
         /\ _is_recent (mkStatus addr None None sc rw) 1000 3600 = false
         /\ _is_recent (mkStatus addr (Some false) None sc rw) 1000 3600 = false).
Proof.
  split; [| split].
  - intros [addr al ts sc rw] now thr. unfold _is_recent. simpl.
    destruct ts as [ts |].
    + apply Z.leb_le.
    + destruct al as [[|] |]; split; intro H; try reflexivity;
        try discriminate; inversion H.
  - intros. unfold _is_recent. simpl. apply Z.leb_le. lia.
  - intros. repeat split; reflexivity.
Qed.

(** ** Booleans as thresholds *)

(** C10. A [bool] goes down the numeric branch with its integer value:
    [True] gives [1.0] and [False] fails with the non-positive message. *)
Theorem parse_threshold_bool :
  (forall b, parse_threshold (PyBool b) = parse_threshold (PyInt (Z.b2z b)))
  /\ parse_threshold (PyBool true) = Ok float_one
  /\ float_one = S754_finite false 4503599627370496 (-52)
  /\ parse_threshold (PyBool false) = Raise (ValueError "threshold must be > 0").
Proof.
  repeat split; intros; reflexivity.
Qed.

(** ** The status normaliser *)

Lemma get_agent_status_of_fetch :
  forall addr base mr bo w norm payload w',
    _normalize_address addr = Ok norm ->
    _http_get_json (status_url base norm) mr bo w = (Ok payload, w') ->
    get_agent_status addr base mr bo w = (status_of_payload norm payload, w').
Proof.
  intros addr base mr bo w norm payload w' Hn Hf.
  unfold get_agent_status, bind, lift. rewrite Hn, Hf. reflexivity.
Qed.

Lemma get_either_eq :
  forall d first second,
    get_either d first second =
    match dict_get d first with
    | PyNone => dict_get d second
    | v => v
    end.
Proof.
  intros d first second. unfold get_either.
  destruct (dict_get d first); reflexivity.
Qed.

Lemma normalize_timestamp_eq :
  forall v,
    normalize_timestamp v =
    if is_None v then None
    else match py_int v with
         | Ok n => Some (if 10000000000 <? n then n / 1000 else n)
         | Raise _ => None
         end.
Proof.
  intro v. unfold normalize_timestamp, ms_bound.
  destruct (is_None v); [reflexivity |].
  destruct (py_int v) as [n | e]; simpl; rewrite ?Z.gtb_ltb; reflexivity.
Qed.

(** C5. Whenever the fetch hands back a JSON object, the status carries the
    timestamp found under [lastPulse], or under [lastPulseTimestamp] when the
    first is missing or null: nothing when there is no value or when [int]
    refuses it, the integer divided by 1000 (rounding down) when it exceeds
    10,000,000,000, the integer itself otherwise. No exception comes out of
    the coercion. *)
Theorem timestamp_normalized :
  forall addr base mr bo w norm d w',
    _normalize_address addr = Ok norm ->
    _http_get_json (status_url base norm) mr bo w = (Ok (PyDict d), w') ->
    exists st,
      get_agent_status addr base mr bo w = (Ok st, w')
      /\ last_pulse_timestamp st =
         match (match dict_get d "lastPulse" with
                | PyNone => dict_get d "lastPulseTimestamp"
                | v => v
                end) with
         | PyNone => None
         | v =>
             match py_int v with
             | Ok n => Some (if 10000000000 <? n then n / 1000 else n)
             | Raise _ => None
             end
         end.
Proof.
  intros addr base mr bo w norm d w' Hn Hf.
  rewrite (get_agent_status_of_fetch _ _ _ _ _ _ _ _ Hn Hf).
  eexists. split; [reflexivity |]. cbn [last_pulse_timestamp].
  rewrite normalize_timestamp_eq, get_either_eq.
  destruct (match dict_get d "lastPulse" with
            | PyNone => dict_get d "lastPulseTimestamp"
            | v => v
            end); reflexivity.
Qed.

Lemma timestamp_normalized_witness :
  exists st,
    get_agent_status "0xAB" "https://pulse.example/" 3 float_half
      (steady_world (PyDict [("lastPulse", PyInt 1700000000000)]))
    = (Ok st, record (Requested "https://pulse.example/api/v2/agent/0xab/alive")
                (steady_world (PyDict [("lastPulse", PyInt 1700000000000)])))
    /\ last_pulse_timestamp st = Some 1700000000.
Proof.
  exact (timestamp_normalized "0xAB" "https://pulse.example/" 3 float_half
           (steady_world (PyDict [("lastPulse", PyInt 1700000000000)]))
           "0xab" [("lastPulse", PyInt 1700000000000)]
           (record (Requested "https://pulse.example/api/v2/agent/0xab/alive")
              (steady_world (PyDict [("lastPulse", PyInt 1700000000000)])))
           eq_refl eq_refl).
Defined.

(** What [int] takes from text: blanks, tabs and line breaks around the
    literal, a sign, underscores between digits, up to 4300 digits; and what
    it refuses, the separators 0x1c..0x1f among them. *)
Example int_of_str_examples :
  int_of_str " -1_000 " = Ok (-1000)
  /\ int_of_str (String (ascii_of_nat 9) ("+007" ++ String (ascii_of_nat 10) "")) = Ok 7
  /\ is_ok (int_of_str (String (ascii_of_nat 28) "12")) = false
  /\ is_ok (int_of_str ("7" ++ String (ascii_of_nat 31) "")) = false
  /\ is_ok (int_of_str "1__0") = false
  /\ is_ok (int_of_str "_1") = false
  /\ is_ok (int_of_str "- 5") = false
  /\ is_ok (int_of_str "1.5") = false
  /\ is_ok (int_of_str "") = false
  /\ is_ok (int_of_str (str_repeat "1" 4300)) = true
  /\ is_ok (int_of_str (str_repeat "1" 4301)) = false
  /\ strip (String (ascii_of_nat 28) "12") = "12".
Proof.
  repeat split; vm_compute; reflexivity.
Qed.

(** The two values of the specification, and a few that [int] refuses. *)
Example timestamp_examples :
  normalize_timestamp (PyInt 1700000000) = Some 1700000000
  /\ normalize_timestamp (PyInt 1700000000000) = Some 1700000000
  /\ normalize_timestamp (PyInt 10000000000) = Some 10000000000
  /\ normalize_timestamp (PyInt 10000000001) = Some 10000000
  /\ normalize_timestamp (PyStr " 1700000000000 ") = Some 1700000000
  /\ normalize_timestamp (PyStr (String (ascii_of_nat 28) "1700000000000")) = None
  /\ normalize_timestamp (PyStr "yesterday") = None
  /\ normalize_timestamp (PyFloat S754_nan) = None
  /\ normalize_timestamp (PyList []) = None
  /\ normalize_timestamp PyNone = None.
Proof.
  repeat split; reflexivity.
Qed.

(** C9. Whenever the fetch hands back a JSON object, the [alive] field of the
    status is the truth value of whatever is found under [alive], or under
    [isAlive] when the first is missing or null, and is empty only when
    nothing is found. The truth value is Python's: every string but the empty
    one is true (the string [false] too), a number is true unless it is
    zero. *)
Theorem alive_is_truthiness :
  (forall addr base mr bo w norm d w',
      _normalize_address addr = Ok norm ->
      _http_get_json (status_url base norm) mr bo w = (Ok (PyDict d), w') ->
      exists st,
        get_agent_status addr base mr bo w = (Ok st, w')
        /\ alive st =
           match (match dict_get d "alive" with
                  | PyNone => dict_get d "isAlive"
                  | v => v
                  end) with
           | PyNone => None
           | v => Some (py_bool v)
           end)
  /\ py_bool (PyStr "false") = true
  /\ (forall c s, py_bool (PyStr (String c s)) = true)
  /\ py_bool (PyStr "") = false
  /\ (forall z, py_bool (PyInt z) = false <-> z = 0)
  /\ (forall f, py_bool (PyFloat f) = false <-> exists s, f = S754_zero s).
Proof.
  split; [| split; [| split; [| split; [| split]]]]; try reflexivity.
  - intros addr base mr bo w norm d w' Hn Hf.
    rewrite (get_agent_status_of_fetch _ _ _ _ _ _ _ _ Hn Hf).
    eexists. split; [reflexivity |]. cbn [alive].
    rewrite get_either_eq.
    destruct (match dict_get d "alive" with
              | PyNone => dict_get d "isAlive"
              | v => v
              end); reflexivity.
  - intro z. simpl. rewrite negb_false_iff. apply Z.eqb_eq.
  - intro f. split.
    + destruct f as [s | [|] | | [|] m e]; simpl; try discriminate.
      intros _. exists s. reflexivity.
    + intros [s ->]. reflexivity.
Qed.

Lemma alive_is_truthiness_witness :
  exists st,
    get_agent_status "0xAB" "https://pulse.example" 3 float_half
      (steady_world (PyDict [("isAlive", PyStr "false")]))
    = (Ok st, record (Requested "https://pulse.example/api/v2/agent/0xab/alive")
                (steady_world (PyDict [("isAlive", PyStr "false")])))
    /\ alive st = Some true.
Proof.
  exact (proj1 alive_is_truthiness "0xAB" "https://pulse.example" 3 float_half
           (steady_world (PyDict [("isAlive", PyStr "false")]))
           "0xab" [("isAlive", PyStr "false")]
           (record (Requested "https://pulse.example/api/v2/agent/0xab/alive")
              (steady_world (PyDict [("isAlive", PyStr "false")])))
           eq_refl eq_refl).
Defined.

(** ** Text lemmas *)

Lemma str_app_nil_r : forall s : string, (s ++ "")%string = s.
Proof.
  induction s as [| c s IH]; simpl; [reflexivity | now rewrite IH].
Qed.

Lemma str_app_assoc :
  forall a b c : string, ((a ++ b) ++ c)%string = (a ++ (b ++ c))%string.
Proof.
  induction a as [| x a IH]; intros b c; simpl; [reflexivity | now rewrite IH].
Qed.

Lemma all_chars_app :
  forall p a b, all_chars p (a ++ b) = (all_chars p a && all_chars p b)%bool.
Proof.
  induction a as [| c a IH]; intro b; simpl; [reflexivity |].
  rewrite IH. apply andb_assoc.
Qed.

Lemma last_char_app_cons :
  forall a c b, last_char (a ++ String c b) = last_char (String c b).
Proof.
  induction a as [| x a IH]; intros c b; [reflexivity |].
  cbn [append last_char]. fold last_char. rewrite IH.
  simpl. destruct (last_char b); reflexivity.
Qed.

Lemma last_char_none : forall s, last_char s = None -> s = "".
Proof.
  destruct s as [| c s]; [reflexivity |]. simpl.
  destruct (last_char s); discriminate.
Qed.

Lemma lstrip_by_split :
  forall p s, exists l,
    s = (l ++ lstrip_by p s)%string
    /\ all_chars p l = true
    /\ fails p (first_char (lstrip_by p s)) = true.
Proof.
  intros p. induction s as [| c s IH].
  - exists "". repeat split.
  - simpl. destruct (p c) eqn:E.
    + destruct IH as (l & Hs & Hl & Hf).
      exists (String c l). simpl. rewrite E, Hl, <- Hs. repeat split. exact Hf.
    + exists "". simpl. rewrite E. repeat split.
Qed.

Lemma rstrip_by_split :
  forall p s, exists r,
    s = (rstrip_by p s ++ r)%string
    /\ all_chars p r = true
    /\ fails p (last_char (rstrip_by p s)) = true.
Proof.
  intros p. induction s as [| c s IH].
  - exists "". repeat split.
  - destruct IH as (r & Hs & Hr & Hf). simpl.
    destruct (rstrip_by p s) as [| d t] eqn:E.
    + destruct (p c) eqn:Ec.
      * exists (String c s). simpl in Hs. subst s. simpl.
        rewrite Ec, Hr. repeat split.
      * exists r. simpl in Hs. subst s. simpl. rewrite Ec. repeat split. exact Hr.
    + exists r. split; [| split].
      * simpl. f_equal. exact Hs.
      * exact Hr.
      * change (last_char (String c (String d t)))
          with (match last_char (String d t) with
                | Some x => Some x
                | None => Some c
                end).
        destruct (last_char (String d t)) eqn:El; [exact Hf |].
        apply last_char_none in El. discriminate.
Qed.

Lemma rstrip_by_first :
  forall p s,
    fails p (first_char s) = true ->
    fails p (first_char (rstrip_by p s)) = true.
Proof.
  intros p [| c s]; simpl; [reflexivity |]. intro H.
  destruct (rstrip_by p s); [| exact H].
  apply negb_true_iff in H. rewrite H. simpl. rewrite H. reflexivity.
Qed.

(** [strip] removes a blank prefix and a blank suffix and leaves a text with
    no whitespace at its ends. *)
Lemma strip_split :
  forall s, exists l r,
    s = (l ++ strip s ++ r)%string
    /\ blank l = true /\ blank r = true /\ trimmed (strip s) = true.
Proof.
  intro s. unfold strip, blank, trimmed.
  destruct (lstrip_by_split is_space s) as (l & Hs & Hl & Hf).
  destruct (rstrip_by_split is_space (lstrip_by is_space s)) as (r & Ht & Hr & Hg).
  exists l, r. split; [| split; [exact Hl | split; [exact Hr |]]].
  - rewrite <- Ht. exact Hs.
  - rewrite Hg, (rstrip_by_first _ _ Hf). reflexivity.
Qed.

Lemma lstrip_by_app :
  forall p l s,
    all_chars p l = true -> fails p (first_char s) = true ->
    lstrip_by p (l ++ s) = s.
Proof.
  intros p. induction l as [| c l IH]; intros s Hl Hs; simpl.
  - destruct s as [| d s]; [reflexivity |]. simpl in *.
    apply negb_true_iff in Hs. rewrite Hs. reflexivity.
  - simpl in Hl. apply andb_true_iff in Hl as [Hc Hl]. rewrite Hc. now apply IH.
Qed.

Lemma lstrip_by_blank :
  forall p s, all_chars p s = true -> lstrip_by p s = "".
Proof.
  intros p. induction s as [| c s IH]; simpl; [reflexivity |]. intro H.
  apply andb_true_iff in H as [Hc Hs]. rewrite Hc. now apply IH.
Qed.

Lemma rstrip_by_blank :
  forall p r, all_chars p r = true -> rstrip_by p r = "".
Proof.
  intros p. induction r as [| c r IH]; simpl; [reflexivity |]. intro H.
  apply andb_true_iff in H as [Hc Hr]. rewrite (IH Hr), Hc. reflexivity.
Qed.

Lemma rstrip_by_app :
  forall p s r,
    all_chars p r = true -> fails p (last_char s) = true ->
    rstrip_by p (s ++ r) = s.
Proof.
  intros p. induction s as [| c s IH]; intros r Hr Hs.
  - simpl. now apply rstrip_by_blank.
  - change (rstrip_by p (String c s ++ r))
      with (match rstrip_by p (s ++ r) with
            | EmptyString => if p c then EmptyString else String c EmptyString
            | r' => String c r'
            end).
    destruct (last_char s) as [d |] eqn:El.
    + assert (Hs' : fails p (Some d) = true).
      { simpl in Hs. rewrite El in Hs. exact Hs. }
      rewrite (IH r Hr Hs').
      destruct s; [discriminate | reflexivity].
    + apply last_char_none in El. subst s. simpl in *.
      rewrite (rstrip_by_blank p r Hr).
      apply negb_true_iff in Hs. rewrite Hs. reflexivity.
Qed.

(** Conversely the three conditions of [strip_split] determine the result. *)
Lemma strip_unique :
  forall l t r,
    blank l = true -> blank r = true -> trimmed t = true ->
    strip (l ++ t ++ r) = t.
Proof.
  intros l t r Hl Hr Ht. unfold blank, trimmed, strip in *.
  apply andb_true_iff in Ht as [Hf Hg].
  destruct t as [| c t].
  - simpl. rewrite lstrip_by_blank; [reflexivity |].
    rewrite all_chars_app, Hl, Hr. reflexivity.
  - rewrite lstrip_by_app; [| exact Hl | exact Hf].
    apply rstrip_by_app; [exact Hr | exact Hg].
Qed.

Lemma startswith_iff :
  forall p t, startswith t p = true <-> exists r, t = (p ++ r)%string.
Proof.
  unfold startswith. induction p as [| c p IH]; intro t.
  - split; [intros _; exists t; reflexivity | destruct t; reflexivity].
  - destruct t as [| d t];
      [split; [discriminate | intros [r H]; discriminate] |].
    cbn [prefix append]. destruct (ascii_dec c d) as [-> | Hne].
    + split.
      * intro H. apply IH in H as [r ->]. exists r. reflexivity.
      * intros [r H]. apply IH. exists r. now inversion H.
    + split; [discriminate |]. intros [r H]. inversion H. congruence.
Qed.

(** ** Address normalisation *)

(** C8. Every candidate is a blank prefix, a core without whitespace at its
    ends and a blank suffix; the core is what [strip] keeps. An empty core
    is refused with [ValueError]; a core that starts with [0x] or [0X] gives
    [0x] followed by the rest in lower case; any other core is put in lower
    case as a whole. The three examples of the specification follow. *)
Theorem normalize_address_trims_and_lowers :
  (forall s, exists l r,
      s = (l ++ strip s ++ r)%string
      /\ blank l = true /\ blank r = true /\ trimmed (strip s) = true
      /\ (strip s = "" -> _normalize_address s = Raise (ValueError "Empty address"))
      /\ (forall rest,
             strip s = ("0x" ++ rest)%string \/ strip s = ("0X" ++ rest)%string ->
             _normalize_address s = Ok ("0x" ++ lower rest)%string)
      /\ (strip s <> "" ->
          (forall rest, strip s <> ("0x" ++ rest)%string) ->
          (forall rest, strip s <> ("0X" ++ rest)%string) ->
          _normalize_address s = Ok (lower (strip s))))
  /\ _normalize_address " 0xABCdef " = Ok "0xabcdef"
  /\ _normalize_address "ABCDEF" = Ok "abcdef"
  /\ _normalize_address "" = Raise (ValueError "Empty address").
Proof.
  split; [| repeat split].
  intro s. destruct (strip_split s) as (l & r & Hs & Hl & Hr & Ht).
  exists l, r. repeat (split; [assumption |]).
  unfold _normalize_address. split; [| split].
  - intros ->. reflexivity.
  - intros rest H.
    assert (Hne : is_empty (strip s) = false) by (destruct H as [-> | ->]; reflexivity).
    rewrite Hne.
    assert (Hp : (startswith (strip s) "0x" || startswith (strip s) "0X")%bool = true).
    { apply orb_true_iff.
      destruct H as [H | H]; [left | right]; apply startswith_iff; exists rest; exact H. }
    rewrite Hp. destruct H as [-> | ->]; reflexivity.
  - intros Hne Hx HX.
    destruct (strip s) as [| c t] eqn:E; [contradiction |].
    cbn [is_empty].
    destruct (startswith (String c t) "0x") eqn:E1.
    { apply startswith_iff in E1 as [rest H]. exfalso. exact (Hx rest H). }
    destruct (startswith (String c t) "0X") eqn:E2.
    { apply startswith_iff in E2 as [rest H]. exfalso. exact (HX rest H). }
    reflexivity.
Qed.

Lemma normalize_address_trims_and_lowers_witness :
  _normalize_address "  0XdeadBEEF  " = Ok "0xdeadbeef".
Proof.
  destruct (proj1 normalize_address_trims_and_lowers "  0XdeadBEEF  ")
    as (l & r & _ & _ & _ & _ & _ & H & _).
  exact (H "deadBEEF" (or_intror eq_refl)).
Defined.

(** ** Character classes *)

Ltac by_char c :=
  destruct c as [[|] [|] [|] [|] [|] [|] [|] [|]];
  vm_compute; intros; solve [reflexivity | discriminate | congruence].

Lemma space_not_digit : forall c, is_space c = true -> is_digit c = false.
Proof. intro c. by_char c. Qed.

Lemma space_not_dot : forall c, is_space c = true -> is_dot c = false.
Proof. intro c. by_char c. Qed.

Lemma unit_not_digit : forall c, is_unit c = true -> is_digit c = false.
Proof. intro c. by_char c. Qed.

Lemma unit_not_dot : forall c, is_unit c = true -> is_dot c = false.
Proof. intro c. by_char c. Qed.

Lemma unit_not_space : forall c, is_unit c = true -> is_space c = false.
Proof. intro c. by_char c. Qed.

Lemma dot_not_digit : forall c, is_dot c = true -> is_digit c = false.
Proof. intro c. by_char c. Qed.

Lemma dot_is_point : forall c, is_dot c = true -> c = "."%char.
Proof. intros c H. apply Ascii.eqb_eq. exact H. Qed.

Lemma lower_char_space : forall c, is_space (lower_char c) = is_space c.
Proof. intro c. by_char c. Qed.

Lemma unit_cases :
  forall c, is_unit c = true ->
            c = "s"%char \/ c = "m"%char \/ c = "h"%char \/ c = "d"%char.
Proof.
  intros c H. unfold is_unit in H.
  repeat (apply orb_true_iff in H as [H | H]);
    apply Ascii.eqb_eq in H; auto.
Qed.

(** ** The scan *)

Lemma span_spec :
  forall p s a b,
    span p s = (a, b) ->
    s = (a ++ b)%string /\ all_chars p a = true /\ fails p (first_char b) = true.
Proof.
  intro p. induction s as [| c s IH]; intros a b H; simpl in H.
  - inversion H; subst. repeat split.
  - destruct (p c) eqn:E.
    + destruct (span p s) as [a' b'] eqn:E'. inversion H; subst.
      destruct (IH a' b eq_refl) as (Hs & Ha & Hb).
      simpl. rewrite E, Ha, <- Hs. repeat split. exact Hb.
    + inversion H; subst. simpl. rewrite E. repeat split.
Qed.

Lemma span_app :
  forall p a b,
    all_chars p a = true -> fails p (first_char b) = true ->
    span p (a ++ b) = (a, b).
Proof.
  intro p. induction a as [| c a IH]; intros b Ha Hb; simpl.
  - destruct b as [| d b]; [reflexivity |]. simpl in *.
    apply negb_true_iff in Hb. rewrite Hb. reflexivity.
  - simpl in Ha. apply andb_true_iff in Ha as [Hc Ha].
    rewrite Hc, (IH b Ha Hb). reflexivity.
Qed.

(** What remains after the number starts with a blank or with the unit. *)
Lemma unit_part_head :
  forall ws u tail,
    blank ws = true -> is_unit u = true ->
    exists c r,
      (ws ++ String u tail)%string = String c r
      /\ is_digit c = false /\ is_dot c = false.
Proof.
  intros [| w ws] u tail Hws Hu; simpl.
  - exists u, tail. auto using unit_not_digit, unit_not_dot.
  - unfold blank in Hws. simpl in Hws. apply andb_true_iff in Hws as [Hw _].
    exists w, (ws ++ String u tail)%string.
    auto using space_not_digit, space_not_dot.
Qed.

Lemma scan_unit_complete :
  forall ws u tail,
    blank ws = true -> is_unit u = true -> at_end tail = true ->
    scan_unit (ws ++ String u tail) = Some u.
Proof.
  intros ws u tail Hws Hu Ht. unfold scan_unit.
  rewrite span_app; [| exact Hws | simpl; now rewrite unit_not_space].
  rewrite Hu, Ht. reflexivity.
Qed.

Lemma scan_unit_sound :
  forall s u,
    scan_unit s = Some u ->
    exists ws tail,
      s = (ws ++ String u tail)%string
      /\ blank ws = true /\ is_unit u = true /\ at_end tail = true.
Proof.
  intros s u H. unfold scan_unit in H.
  destruct (span is_space s) as [ws r3] eqn:E.
  apply span_spec in E as (Hs & Hws & _).
  destruct r3 as [| c rest]; [discriminate |].
  destruct (is_unit c && at_end rest)%bool eqn:Ec; [| discriminate].
  inversion H; subst c. apply andb_true_iff in Ec as [Hu Ht].
  exists ws, rest. auto.
Qed.

Lemma digit_run_parts :
  forall s, digit_run s = true <-> is_empty s = false /\ all_chars is_digit s = true.
Proof.
  intro s. unfold digit_run. rewrite andb_true_iff, negb_true_iff. reflexivity.
Qed.

Lemma scan_value_complete :
  forall t rest c r,
    value_text t ->
    rest = String c r -> is_digit c = false -> is_dot c = false ->
    scan_value (t ++ rest) = Some (t, rest).
Proof.
  intros t rest c r (ip & Hip & Ht) -> Hc Hd.
  apply digit_run_parts in Hip as [Hne Hall].
  unfold scan_value. destruct Ht as [-> | (fp & Hfp & ->)].
  - rewrite span_app; [| exact Hall | simpl; now rewrite Hc].
    rewrite Hne, Hd. reflexivity.
  - apply digit_run_parts in Hfp as [Hfne Hfall].
    rewrite str_app_assoc. cbn [append].
    rewrite span_app; [| exact Hall | reflexivity].
    rewrite Hne. change (is_dot ".") with true. cbv iota.
    rewrite span_app; [| exact Hfall | simpl; now rewrite Hc].
    rewrite Hfne. reflexivity.
Qed.

Lemma scan_value_sound :
  forall s t rest,
    scan_value s = Some (t, rest) ->
    s = (t ++ rest)%string /\ value_text t.
Proof.
  intros s t rest H. unfold scan_value in H.
  destruct (span is_digit s) as [ip r1] eqn:E1.
  apply span_spec in E1 as (Hs & Hip & _).
  destruct (is_empty ip) eqn:Hne; [discriminate |].
  assert (Hrun : digit_run ip = true) by (apply digit_run_parts; auto).
  assert (Hplain : s = (ip ++ r1)%string /\ value_text ip).
  { split; [exact Hs |]. exists ip. auto. }
  destruct r1 as [| c r]; [inversion H; subst; exact Hplain |].
  destruct (is_dot c) eqn:Hd; [| inversion H; subst; exact Hplain].
  destruct (span is_digit r) as [fp r'] eqn:E2.
  apply span_spec in E2 as (Hr & Hfp & _).
  destruct (is_empty fp) eqn:Hfne; [inversion H; subst; exact Hplain |].
  inversion H; subst t rest. apply dot_is_point in Hd. subst c.
  split.
  - rewrite Hs, Hr, str_app_assoc. reflexivity.
  - exists ip. split; [exact Hrun |]. right. exists fp.
    split; [apply digit_run_parts; auto | reflexivity].
Qed.

Lemma match_threshold_complete :
  forall t ws u tail,
    value_text t -> blank ws = true -> is_unit u = true -> at_end tail = true ->
    match_threshold (t ++ ws ++ String u tail) = Some (t, u).
Proof.
  intros t ws u tail Ht Hws Hu Hend. unfold match_threshold.
  destruct (unit_part_head ws u tail Hws Hu) as (c & r & E & Hc & Hd).
  rewrite (scan_value_complete t _ c r Ht E Hc Hd).
  rewrite (scan_unit_complete ws u tail Hws Hu Hend). reflexivity.
Qed.

Lemma match_threshold_sound :
  forall s t u,
    match_threshold s = Some (t, u) ->
    exists ws tail,
      s = (t ++ ws ++ String u tail)%string
      /\ value_text t /\ blank ws = true /\ is_unit u = true
      /\ at_end tail = true.
Proof.
  intros s t u H. unfold match_threshold in H.
  destruct (scan_value s) as [[value r2] |] eqn:E; [| discriminate].
  destruct (scan_unit r2) as [u' |] eqn:E2; [| discriminate].
  inversion H; subst value u'.
  apply scan_value_sound in E as (Hs & Ht).
  apply scan_unit_sound in E2 as (ws & tail & Hr & Hws & Hu & Hend).
  exists ws, tail. rewrite Hs, Hr. auto.
Qed.

(** ** The pattern *)

Lemma all_chars_weaken :
  forall (p q : ascii -> bool) s,
    (forall c, p c = true -> q c = true) ->
    all_chars p s = true -> all_chars q s = true.
Proof.
  intros p q s Hpq. induction s as [| c s IH]; simpl; [reflexivity |].
  intro H. apply andb_true_iff in H as [Hc Hs].
  rewrite (Hpq c Hc), (IH Hs). reflexivity.
Qed.

(** A match only holds characters of the pattern's classes. *)
Lemma re_match_alphabet :
  forall r s, re_match r s -> all_chars (alphabet r) s = true.
Proof.
  induction 1; simpl; rewrite ?all_chars_app; try reflexivity;
    try assumption.
  - rewrite H. reflexivity.
  - apply andb_true_iff. split.
    + apply (all_chars_weaken (alphabet r1)); [| assumption].
      intros c Hc. rewrite Hc. reflexivity.
    + apply (all_chars_weaken (alphabet r2)); [| assumption].
      intros c Hc. rewrite Hc. apply orb_true_r.
  - apply andb_true_iff. split; assumption.
  - apply andb_true_iff. split; assumption.
Qed.

Lemma re_chr_inv :
  forall p s, re_match (Chr p) s -> exists c, s = String c "" /\ p c = true.
Proof.
  intros p s H. inversion H; subst. eauto.
Qed.

Lemma re_seq_inv :
  forall r1 r2 s,
    re_match (Seq r1 r2) s ->
    exists s1 s2, s = (s1 ++ s2)%string /\ re_match r1 s1 /\ re_match r2 s2.
Proof.
  intros r1 r2 s H. inversion H; subst. eauto.
Qed.

Lemma re_plus_chr :
  forall p s,
    re_match (Plus (Chr p)) s <-> is_empty s = false /\ all_chars p s = true.
Proof.
  intros p s. split.
  - intro H. remember (Plus (Chr p)) as r eqn:Er.
    induction H; inversion Er; subst.
    + apply re_chr_inv in H as (c & -> & Hc). simpl. rewrite Hc. auto.
    + apply re_chr_inv in H as (c & -> & Hc).
      destruct (IHre_match2 eq_refl) as [_ Hall].
      simpl. rewrite Hc, Hall. auto.
  - revert s. induction s as [| c s IH]; intros [Hne Hall]; [discriminate |].
    simpl in Hall. apply andb_true_iff in Hall as [Hc Hs].
    destruct s as [| d s'].
    + apply M_plus_one. now apply M_chr.
    + change (String c (String d s')) with (String c "" ++ String d s')%string.
      apply M_plus_more; [now apply M_chr |]. apply IH. auto.
Qed.

Lemma re_star_chr :
  forall p s, re_match (Star (Chr p)) s <-> all_chars p s = true.
Proof.
  intros p s. split.
  - intro H. remember (Star (Chr p)) as r eqn:Er.
    induction H; inversion Er; subst; [reflexivity |].
    apply re_chr_inv in H as (c & -> & Hc).
    simpl. rewrite Hc, (IHre_match2 eq_refl). reflexivity.
  - revert s. induction s as [| c s IH]; intro Hall; [apply M_star_nil |].
    simpl in Hall. apply andb_true_iff in Hall as [Hc Hs].
    change (String c s) with (String c "" ++ s)%string.
    apply M_star_more; [now apply M_chr | now apply IH].
Qed.

Lemma re_digits : forall s, re_match (Plus (Chr is_digit)) s <-> digit_run s = true.
Proof.
  intro s. rewrite re_plus_chr, digit_run_parts. reflexivity.
Qed.

Lemma value_re_iff : forall t, re_match value_re t <-> value_text t.
Proof.
  intro t. unfold value_re, value_text. split.
  - intro H. apply re_seq_inv in H as (ip & rest & -> & Hip & Hrest).
    apply re_digits in Hip. exists ip. split; [exact Hip |].
    inversion Hrest as [| | r E1 E2 | r s Hfrac E1 E2 | | | |]; subst.
    + left. apply str_app_nil_r.
    + right. apply re_seq_inv in Hfrac as (d & fp & -> & Hd & Hfp).
      apply re_chr_inv in Hd as (c & -> & Hc). apply dot_is_point in Hc. subst c.
      apply re_digits in Hfp. exists fp. auto.
  - intros (ip & Hip & [-> | (fp & Hfp & ->)]).
    + rewrite <- (str_app_nil_r ip) at 1.
      apply M_seq; [now apply re_digits | apply M_opt_none].
    + apply M_seq; [now apply re_digits |]. apply M_opt_some.
      change (String "." fp) with (String "." "" ++ fp)%string.
      apply M_seq; [now apply M_chr | now apply re_digits].
Qed.

Lemma threshold_re_iff :
  forall s,
    re_match threshold_re s <->
    exists t ws u,
      s = (t ++ ws ++ String u "")%string
      /\ value_text t /\ blank ws = true /\ is_unit u = true.
Proof.
  intro s. unfold threshold_re. split.
  - intro H. apply re_seq_inv in H as (t & rest & -> & Ht & Hrest).
    apply re_seq_inv in Hrest as (ws & us & -> & Hws & Hu).
    apply re_chr_inv in Hu as (u & -> & Hu).
    exists t, ws, u. repeat split; try assumption.
    + now apply value_re_iff.
    + now apply re_star_chr.
  - intros (t & ws & u & -> & Ht & Hws & Hu).
    apply M_seq; [now apply value_re_iff |].
    apply M_seq; [now apply re_star_chr | now apply M_chr].
Qed.

(** ** The text a threshold is matched against *)

Lemma last_char_lower :
  forall s, last_char (lower s) = option_map lower_char (last_char s).
Proof.
  induction s as [| c s IH]; [reflexivity |].
  cbn [lower last_char]. fold last_char. rewrite IH.
  destruct (last_char s); reflexivity.
Qed.

Lemma threshold_text_end :
  forall s, fails is_space (last_char (threshold_text s)) = true.
Proof.
  intro s. unfold threshold_text. rewrite last_char_lower.
  destruct (strip_split s) as (l & r & _ & _ & _ & Ht).
  unfold trimmed in Ht. apply andb_true_iff in Ht as [_ Hlast].
  destruct (last_char (strip s)) as [c |]; [| reflexivity].
  simpl in *. rewrite lower_char_space. exact Hlast.
Qed.

(** On such a text the anchor [$] can only be the very end. *)
Lemma anchored_at_end :
  forall s t ws u tail,
    s = (t ++ ws ++ String u tail)%string ->
    at_end tail = true -> fails is_space (last_char s) = true ->
    tail = "".
Proof.
  intros s t ws u tail -> Hend Hlast.
  destruct tail as [| c [| d tail]]; [reflexivity | | discriminate].
  exfalso. simpl in Hend. apply Ascii.eqb_eq in Hend. subst c.
  rewrite <- str_app_assoc, last_char_app_cons in Hlast. discriminate.
Qed.

Lemma match_threshold_text :
  forall s t u,
    match_threshold (threshold_text s) = Some (t, u) <-> parses_as s t u.
Proof.
  intros s t u. unfold parses_as. split.
  - intro H. apply match_threshold_sound in H
      as (ws & tail & Hs & Ht & Hws & Hu & Hend).
    assert (tail = "") by
      exact (anchored_at_end _ _ _ _ _ Hs Hend (threshold_text_end s)).
    subst tail. exists ws. auto.
  - intros (ws & -> & Ht & Hws & Hu). now apply match_threshold_complete.
Qed.

Lemma match_threshold_none :
  forall s,
    match_threshold (threshold_text s) = None <->
    ~ re_match threshold_re (threshold_text s).
Proof.
  intro s. split.
  - intros Hnone Hm. apply threshold_re_iff in Hm as (t & ws & u & Hs & Ht & Hws & Hu).
    assert (H : match_threshold (threshold_text s) = Some (t, u)).
    { apply match_threshold_text. exists ws. auto. }
    congruence.
  - intro Hno. destruct (match_threshold (threshold_text s)) as [[t u] |] eqn:E;
      [| reflexivity].
    exfalso. apply Hno. apply match_threshold_text in E as (ws & Hs & Ht & Hws & Hu).
    apply threshold_re_iff. exists t, ws, u. auto.
Qed.

Lemma convert_unit_ok :
  forall value u,
    is_unit u = true ->
    convert_unit value u =
    Ok (if Ascii.eqb u "s" then F64.div value float_3600
        else if Ascii.eqb u "m" then F64.div value float_60
        else if Ascii.eqb u "h" then value
        else F64.mul value float_24).
Proof.
  intros value u Hu. unfold convert_unit.
  destruct (unit_cases u Hu) as [-> | [-> | [-> | ->]]]; reflexivity.
Qed.

Lemma parse_threshold_str_parsed :
  forall s text u,
    parses_as s text u ->
    parse_threshold (PyStr s) =
    if F64.leb (float_of_decimal_text text) F64.zero
    then Raise (ValueError msg_nonpositive)
    else convert_unit (float_of_decimal_text text) u.
Proof.
  intros s text u H. apply match_threshold_text in H.
  unfold parse_threshold, parse_threshold_str.
  fold (threshold_text s). rewrite H. reflexivity.
Qed.

(** ** Threshold parsing *)

(** C6. A string that reads as a number and a unit gives the number divided
    by 3600 for [s], divided by 60 for [m], unchanged for [h], times 24 for
    [d]; a positive number is returned as a float, unchanged. Every accepted
    input is of one of these kinds. The five values of the specification
    follow. *)
Theorem parse_threshold_hours :
  (forall s text,
      F64.leb (float_of_decimal_text text) F64.zero = false ->
      (parses_as s text "s" ->
       parse_threshold (PyStr s)
       = Ok (F64.div (float_of_decimal_text text) (F64.of_Z 3600)))
      /\ (parses_as s text "m" ->
          parse_threshold (PyStr s)
          = Ok (F64.div (float_of_decimal_text text) (F64.of_Z 60)))
      /\ (parses_as s text "h" ->
          parse_threshold (PyStr s) = Ok (float_of_decimal_text text))
      /\ (parses_as s text "d" ->
          parse_threshold (PyStr s)
          = Ok (F64.mul (float_of_decimal_text text) (F64.of_Z 24))))
  /\ (forall z,
         0 < z -> F64.is_finite (F64.of_Z z) = true ->
         parse_threshold (PyInt z) = Ok (F64.of_Z z))
  /\ (forall f,
         F64.leb f F64.zero = false -> parse_threshold (PyFloat f) = Ok f)
  /\ (forall v h,
         parse_threshold v = Ok h ->
         (exists s text u,
             v = PyStr s /\ parses_as s text u
             /\ F64.leb (float_of_decimal_text text) F64.zero = false)
         \/ (exists z, (v = PyInt z \/ v = PyBool true /\ z = 1)
                       /\ 0 < z /\ h = F64.of_Z z)
         \/ (v = PyFloat h /\ F64.leb h F64.zero = false))
  /\ parse_threshold (PyStr "24h") = Ok (F64.of_Z 24)
  /\ parse_threshold (PyStr "15m") = Ok (F64.of_decimal 25 2)
  /\ F64.of_decimal 25 2 = S754_finite false 4503599627370496 (-54)
  /\ parse_threshold (PyStr "2d") = Ok (F64.of_Z 48)
  /\ parse_threshold (PyStr "90s") = Ok (F64.of_decimal 25 3)
  /\ parse_threshold (PyInt 3) = Ok (F64.of_Z 3).
Proof.
  split; [| split; [| split; [| split; [| repeat split; reflexivity]]]].
  - intros s text Hpos.
    repeat split; intro H; rewrite (parse_threshold_str_parsed _ _ _ H), Hpos;
      reflexivity.
  - intros z Hz Hfin. simpl. unfold parse_threshold_int, float_of_int.
    destruct (z <=? 0) eqn:E; [apply Z.leb_le in E; lia |].
    rewrite Hfin. reflexivity.
  - intros f Hf. simpl. rewrite Hf. reflexivity.
  - intros v h H. destruct v as [| b | z | f | s | l | d]; simpl in H;
      try discriminate.
    + right. left. destruct b; [| discriminate].
      exists 1. inversion H. auto 6 with zarith.
    + right. left. unfold parse_threshold_int, float_of_int in H.
      destruct (z <=? 0) eqn:E; [discriminate |].
      destruct (F64.is_finite (F64.of_Z z)); [| discriminate].
      inversion H. exists z. apply Z.leb_gt in E. auto.
    + right. right. destruct (F64.leb f F64.zero) eqn:E; [discriminate |].
      inversion H; subst. auto.
    + left. unfold parse_threshold_str in H. fold (threshold_text s) in H.
      destruct (match_threshold (threshold_text s)) as [[text u] |] eqn:E;
        [| discriminate].
      apply match_threshold_text in E.
      destruct (F64.leb (float_of_decimal_text text) F64.zero) eqn:El;
        [discriminate |].
      exists s, text, u. auto.
Qed.

Lemma parse_threshold_hours_witness :
  parse_threshold (PyStr " 1.5 D ")
  = Ok (F64.mul (float_of_decimal_text "1.5") (F64.of_Z 24)).
Proof.
  refine (proj2 (proj2 (proj2
            (proj1 parse_threshold_hours " 1.5 D " "1.5" eq_refl))) _).
  exists " ". repeat split; try reflexivity.
  exists "1". split; [reflexivity |]. right. exists "5". split; reflexivity.
Defined.

(** C7, as the specification words it, fails on the code: [24 h] does not
    match the pattern written there, which leaves no room between the number
    and the unit, yet it is accepted. *)
Lemma spec_pattern_is_not_the_codes :
  ~ (rejects spec_threshold_re (PyStr "24 h") <->
     exists msg, parse_threshold (PyStr "24 h") = Raise (ValueError msg)).
Proof.
  intros [H _].
  assert (Hrej : rejects spec_threshold_re (PyStr "24 h")).
  { left. intro Hm. apply re_match_alphabet in Hm. vm_compute in Hm. discriminate. }
  destruct (H Hrej) as [msg Hmsg]. vm_compute in Hmsg. discriminate.
Qed.

(** C7, amended. [parse_threshold] fails with [ValueError] exactly when the
    input is a number that is not positive, a string whose trimmed,
    lower-cased text does not match [\d+(\.\d+)?\s*[smhd]] or whose number is
    not positive, or a value that is neither a string nor a number. Every
    other input is accepted, but for an integer beyond the range of a float,
    which raises [OverflowError]. *)
Theorem parse_threshold_rejects_exactly :
  forall v,
    ((exists msg, parse_threshold v = Raise (ValueError msg))
     <-> rejects threshold_re v)
    /\ (~ rejects threshold_re v ->
        (exists h, parse_threshold v = Ok h)
        \/ (exists z,
               v = PyInt z /\ F64.is_finite (F64.of_Z z) = false
               /\ parse_threshold v
                  = Raise (OverflowError "int too large to convert to float"))).
Proof.
  assert (Hint : forall z,
             ((exists msg, parse_threshold_int z = Raise (ValueError msg)) <-> z <= 0)
             /\ (~ z <= 0 ->
                 (exists h, parse_threshold_int z = Ok h)
                 \/ (F64.is_finite (F64.of_Z z) = false
                     /\ parse_threshold_int z
                        = Raise (OverflowError "int too large to convert to float")))).
  { intro z. unfold parse_threshold_int, float_of_int.
    destruct (z <=? 0) eqn:E.
    - apply Z.leb_le in E. split; [| contradiction].
      split; [intros _; exact E | intros _; eexists; reflexivity].
    - apply Z.leb_gt in E.
      destruct (F64.is_finite (F64.of_Z z)) eqn:Ef.
      + split; [| intros _; left; eexists; reflexivity].
        split; [intros [msg H]; discriminate | lia].
      + split; [| intros _; right; split; reflexivity].
        split; [intros [msg H]; discriminate | lia]. }
  intros [| b | z | f | s | l | d]; cbn [parse_threshold rejects].
  - split; [| tauto]. split; [trivial | intros _; eexists; reflexivity].
  - destruct (Hint (Z.b2z b)) as [H1 H2]. split; [exact H1 |].
    intro Hpos. destruct (H2 Hpos) as [H | [Hfin _]]; [left; exact H |].
    destruct b; discriminate.
  - destruct (Hint z) as [H1 H2]. split; [exact H1 |].
    intro Hpos. destruct (H2 Hpos) as [H | [Hfin H]]; [left; exact H |].
    right. exists z. auto.
  - destruct (F64.leb f F64.zero) eqn:E.
    + split; [| intro H; exfalso; apply H; reflexivity].
      split; [reflexivity | intros _; eexists; reflexivity].
    + split; [| intros _; left; eexists; reflexivity].
      split; [intros [msg H]; discriminate | discriminate].
  - unfold parse_threshold_str. fold (threshold_text s).
    destruct (match_threshold (threshold_text s)) as [[text u] |] eqn:E.
    + pose proof E as Hp. apply match_threshold_text in Hp.
      assert (Hu : is_unit u = true) by (destruct Hp as (ws & _ & _ & _ & Hu); exact Hu).
      assert (Hm : re_match threshold_re (threshold_text s)).
      { destruct Hp as (ws & Hs & Ht & Hws & _).
        apply threshold_re_iff. exists text, ws, u. auto. }
      rewrite (convert_unit_ok _ _ Hu).
      destruct (F64.leb (float_of_decimal_text text) F64.zero) eqn:El.
      * split.
        -- split; [| intros _; eexists; reflexivity].
           intros _. right. exists text, u. auto.
        -- intro Hno. exfalso. apply Hno. right. exists text, u. auto.
      * split; [| intros _; left; eexists; reflexivity].
        split; [intros [msg H]; discriminate |].
        intros [Hno | (text' & u' & Hp' & El')]; [contradiction |].
        apply match_threshold_text in Hp'. rewrite E in Hp'.
        inversion Hp'; subst. congruence.
    + pose proof E as Hno. apply match_threshold_none in Hno.
      split.
      * split; [intros _; left; exact Hno | intros _; eexists; reflexivity].
      * intro H. exfalso. apply H. left. exact Hno.
  - split; [| tauto]. split; [trivial | intros _; eexists; reflexivity].
  - split; [| tauto]. split; [trivial | intros _; eexists; reflexivity].
Qed.

Lemma parse_threshold_rejects_exactly_witness :
  exists msg, parse_threshold (PyStr "24x") = Raise (ValueError msg).
Proof.
  apply (proj2 (proj1 (parse_threshold_rejects_exactly (PyStr "24x")))).
  left. intro Hm. apply re_match_alphabet in Hm. discriminate Hm.
Defined.

(** The five refusals of the specification, and three inputs the pattern of
    the code lets through. *)
Example parse_threshold_refusals :
  parse_threshold (PyStr "0h") = Raise (ValueError "threshold must be > 0")
  /\ parse_threshold (PyInt 0) = Raise (ValueError "threshold must be > 0")
  /\ parse_threshold (PyInt (-1)) = Raise (ValueError "threshold must be > 0")
  /\ parse_threshold (PyStr "abc") = Raise (ValueError msg_bad_pattern)
  /\ parse_threshold (PyStr "24x") = Raise (ValueError msg_bad_pattern)
  /\ parse_threshold (PyStr "24 h") = Ok (F64.of_Z 24)
  /\ parse_threshold (PyStr " 24H ") = Ok (F64.of_Z 24)
  /\ parse_threshold (PyInt (2 ^ 1024))
     = Raise (OverflowError "int too large to convert to float").
Proof.
  repeat split; vm_compute; reflexivity.
Qed.

(** ** The fetch *)

Lemma extend_nil : forall w, extend w [] = w.
Proof.
  intros [sv ck lg]. unfold extend. simpl. rewrite app_nil_r. reflexivity.
Qed.

Lemma extend_extend :
  forall w l1 l2, extend (extend w l1) l2 = extend w (l1 ++ l2).
Proof.
  intros w l1 l2. unfold extend. simpl. rewrite app_assoc. reflexivity.
Qed.

Lemma record_extend : forall e w, record e w = extend w [e].
Proof. reflexivity. Qed.

Lemma time_sleep_accepts :
  forall d w, sleep_accepts d = true -> time_sleep d w = (Ok tt, record (Slept d) w).
Proof.
  intros d w H. unfold sleep_accepts in H. unfold time_sleep.
  destruct d as [s | s | | s m e]; try discriminate;
    apply andb_true_iff in H as [H Hneg];
    rewrite H; apply negb_true_iff in Hneg; rewrite Hneg; reflexivity.
Qed.

Lemma sleep_for_delay :
  forall backoff j,
    delay_ok backoff j = true ->
    sleep_for backoff (Z.of_nat j) = Ok (delay backoff j)
    /\ sleep_accepts (delay backoff j) = true.
Proof.
  intros backoff j H. unfold delay_ok in H. apply andb_true_iff in H as [Hf Hs].
  split; [| exact Hs]. unfold sleep_for, float_of_int. rewrite Hf. reflexivity.
Qed.

(** One failed attempt that is retried: a request, a wait, and on to the
    next attempt. *)
Lemma attempts_retry_once :
  forall url mr backoff rem j last w,
    retried (server w (log w) url) = true ->
    Z.of_nat j < mr ->
    delay_ok backoff j = true ->
    exists last',
      attempts url mr backoff (S rem) (Z.of_nat j) last w
      = attempts url mr backoff rem (Z.of_nat (S j)) last'
          (extend w [Requested url; Slept (delay backoff j)]).
Proof.
  intros url mr backoff rem j last w Hret Hlt Hok.
  destruct (sleep_for_delay _ _ Hok) as [Hd Hs].
  assert (Hge : (Z.of_nat j >=? mr) = false) by (rewrite Z.geb_leb; apply Z.leb_gt; lia).
  assert (Hnext : Z.of_nat j + 1 = Z.of_nat (S j)) by lia.
  cbn [attempts]. unfold urlopen.
  destruct (server w (log w) url) as [p | text st body | text | e];
    simpl in Hret; try discriminate.
  - rewrite Hge, Hret. cbn [negb orb].
    unfold bind, lift. rewrite Hd, (time_sleep_accepts _ _ Hs), Hnext.
    exists (Some text). rewrite !record_extend, extend_extend. reflexivity.
  - rewrite Hge. unfold bind, lift.
    rewrite Hd, (time_sleep_accepts _ _ Hs), Hnext.
    exists (Some text). rewrite !record_extend, extend_extend. reflexivity.
Qed.

(** [k] failed attempts in a row, each retried. *)
Lemma attempts_retry_many :
  forall url mr backoff k rem j last w,
    (forall i, (i < k)%nat ->
               retried (server w (log w ++ retry_log_from url backoff j i) url) = true) ->
    (forall i, (i < k)%nat -> delay_ok backoff (j + i) = true) ->
    Z.of_nat (j + k) <= mr ->
    exists last',
      attempts url mr backoff (k + rem) (Z.of_nat j) last w
      = attempts url mr backoff rem (Z.of_nat (j + k)) last'
          (extend w (retry_log_from url backoff j k)).
Proof.
  intros url mr backoff. induction k as [| k IH]; intros rem j last w Hret Hok Hle.
  - exists last. rewrite Nat.add_0_r. simpl. rewrite extend_nil. reflexivity.
  - assert (H0 : retried (server w (log w) url) = true).
    { specialize (Hret 0%nat ltac:(lia)). simpl in Hret.
      rewrite app_nil_r in Hret. exact Hret. }
    assert (Hok0 : delay_ok backoff j = true).
    { specialize (Hok 0%nat ltac:(lia)). rewrite Nat.add_0_r in Hok. exact Hok. }
    destruct (attempts_retry_once url mr backoff (k + rem) j last w H0
                ltac:(lia) Hok0) as [last1 E1].
    change (S k + rem)%nat with (S (k + rem)). rewrite E1.
    destruct (IH rem (S j) last1
                (extend w [Requested url; Slept (delay backoff j)])) as [last2 E2].
    + intros i Hi. specialize (Hret (S i) ltac:(lia)).
      simpl. simpl in Hret. rewrite <- app_assoc. exact Hret.
    + intros i Hi. specialize (Hok (S i) ltac:(lia)).
      replace (S j + i)%nat with (j + S i)%nat by lia. exact Hok.
    + lia.
    + exists last2. rewrite E2, extend_extend.
      replace (S j + k)%nat with (j + S k)%nat by lia. reflexivity.
Qed.

Lemma sleeps_app : forall l1 l2, sleeps (l1 ++ l2) = (sleeps l1 ++ sleeps l2)%list.
Proof.
  induction l1 as [| [u | d] l1 IH]; intro l2; simpl; rewrite ?IH; reflexivity.
Qed.

Lemma requests_app : forall l1 l2, requests (l1 ++ l2) = (requests l1 + requests l2)%nat.
Proof.
  induction l1 as [| [u | d] l1 IH]; intro l2; simpl; rewrite ?IH; reflexivity.
Qed.

Lemma sleeps_retry_log :
  forall url backoff k j,
    sleeps (retry_log_from url backoff j k) = map (delay backoff) (seq j k).
Proof.
  intros url backoff. induction k as [| k IH]; intro j; simpl; [reflexivity |].
  rewrite IH. reflexivity.
Qed.

Lemma requests_retry_log :
  forall url backoff k j, requests (retry_log_from url backoff j k) = k.
Proof.
  intros url backoff. induction k as [| k IH]; intro j; simpl; [reflexivity |].
  rewrite IH. reflexivity.
Qed.

Lemma str_take_length : forall n s, (String.length (str_take n s) <= n)%nat.
Proof.
  induction n as [| n IH]; intros [| c s]; simpl; try lia.
  specialize (IH s). lia.
Qed.

Lemma retryable_iff :
  forall c, retryable (Some c) = true <-> c = 408 \/ c = 429 \/ 500 <= c <= 599.
Proof.
  intro c. unfold retryable.
  rewrite !orb_true_iff, andb_true_iff, !Z.eqb_eq, !Z.leb_le. tauto.
Qed.

(** C4, as the specification words it, holds of every fetch, whatever the
    backoff. It fails on the code for a backoff of minus half a second: the
    server answers 503 and would answer the next request, three retries are
    left, yet the fetch does not try again. [time.sleep] refuses the
    negative wait, outside the [try], and its [ValueError] ends the fetch
    after one request. *)
Lemma negative_backoff_is_not_retried :
  ~ (forall backoff,
        _http_get_json demo_url 3 backoff outage_world
        = (Ok demo_payload,
           extend outage_world
             [Requested demo_url;
              Slept (F64.mul backoff (F64.of_Z (2 ^ 0)));
              Requested demo_url]))
  /\ retried (server outage_world (log outage_world) demo_url) = true
  /\ _http_get_json demo_url 3 float_minus_half outage_world
     = (Raise (ValueError "sleep length must be non-negative"),
        extend outage_world [Requested demo_url]).
Proof.
  split; [| split; reflexivity].
  intro H. specialize (H float_minus_half). vm_compute in H. discriminate H.
Qed.

(** C4, amended. Let the first [k] attempts of a fetch, [k] at most [max_retries],
    each fail with status 408, 429 or 5xx or with an error below HTTP, the
    waits being ones [time.sleep] takes. Then the fetch has made these [k]
    requests, has slept [backoff_secs * 2^i] after the attempt number [i],
    and makes one more request, which decides: a JSON answer is returned; an
    HTTP failure whose status is not retryable, or any HTTP failure once
    [k = max_retries], raises [AgentPulseError] with the URL, the status and
    the first 200 characters of the body; an error below HTTP once
    [k = max_retries] raises [AgentPulseError] with the URL and the error.
    Nothing else is requested or slept. *)
Theorem http_get_json_retry_policy :
  (forall url mr backoff w k,
      Z.of_nat k <= mr ->
      (forall i, (i < k)%nat ->
                 retried (server w (log w ++ retry_log url backoff i) url) = true) ->
      (forall i, (i < k)%nat -> delay_ok backoff i = true) ->
      let after := extend w (retry_log url backoff k ++ [Requested url]) in
      match server w (log w ++ retry_log url backoff k) url with
      | Responded payload =>
          _http_get_json url mr backoff w = (Ok payload, after)
      | HTTPFailure _ status body =>
          retryable status = false \/ Z.of_nat k = mr ->
          _http_get_json url mr backoff w
          = (Raise (AgentPulseError
                      ("Agent Pulse API HTTP " ++ str_of_status status ++ " for "
                       ++ url ++ ". Body: "
                       ++ str_take 200 (match body with Some b => b | None => "" end))),
             after)
      | URLFailure text =>
          Z.of_nat k = mr ->
          _http_get_json url mr backoff w
          = (Raise (AgentPulseError
                      ("Agent Pulse API request failed for " ++ url ++ ": " ++ text)),
             after)
      | Crashed e => _http_get_json url mr backoff w = (Raise e, after)
      end
      /\ sleeps (log after)
         = (sleeps (log w)
            ++ map (fun i => F64.mul backoff (F64.of_Z (2 ^ Z.of_nat i))) (seq 0 k))%list
      /\ requests (log after) = (requests (log w) + (k + 1))%nat)
  /\ (forall c, retryable (Some c) = true <-> c = 408 \/ c = 429 \/ 500 <= c <= 599)
  /\ retryable None = false
  /\ (forall body, (String.length (str_take 200 body) <= 200)%nat).
Proof.
  split; [| split; [exact retryable_iff | split; [reflexivity |]]];
    [| intro body; apply str_take_length].
  intros url mr backoff w k Hk Hret Hok after.
  split; [| split].
  - assert (Hrem : exists r, Z.to_nat (mr + 1) = (k + S r)%nat).
    { exists (Z.to_nat (mr + 1) - k - 1)%nat. lia. }
    destruct Hrem as [r Hr].
    destruct (attempts_retry_many url mr backoff k (S r) 0 None w Hret Hok
                ltac:(simpl; lia)) as [last E].
    unfold _http_get_json. rewrite Hr.
    change 0 with (Z.of_nat 0). rewrite E. clear E.
    fold (retry_log url backoff k). cbn [attempts Nat.add]. unfold urlopen.
    cbn [server log extend].
    assert (Hafter : record (Requested url) (extend w (retry_log url backoff k)) = after).
    { unfold after. rewrite record_extend, extend_extend. reflexivity. }
    rewrite Hafter.
    destruct (server w (log w ++ retry_log url backoff k) url)
      as [p | text st body | text | e]; try reflexivity.
    + intros [Hst | Hlast].
      * rewrite Hst. cbn [negb]. rewrite orb_true_r. reflexivity.
      * assert (Hge : (Z.of_nat k >=? mr) = true)
          by (rewrite Z.geb_leb; apply Z.leb_le; lia).
        rewrite Hge. reflexivity.
    + intro Hlast.
      assert (Hge : (Z.of_nat k >=? mr) = true)
        by (rewrite Z.geb_leb; apply Z.leb_le; lia).
      rewrite Hge. reflexivity.
  - unfold after. cbn [log extend].
    rewrite !sleeps_app. unfold retry_log. rewrite sleeps_retry_log.
    simpl. rewrite app_nil_r. reflexivity.
  - unfold after. cbn [log extend].
    rewrite !requests_app. unfold retry_log. rewrite requests_retry_log.
    reflexivity.
Qed.

Lemma http_get_json_retry_policy_witness :
  _http_get_json demo_url 3 float_half flaky_world
  = (Ok demo_payload,
     extend flaky_world
       [Requested demo_url; Slept float_half;
        Requested demo_url; Slept float_one;
        Requested demo_url]).
Proof.
  assert (H1 : Z.of_nat 2 <= 3) by lia.
  assert (H2 : forall i, (i < 2)%nat ->
                 retried (server flaky_world
                            (log flaky_world ++ retry_log demo_url float_half i)
                            demo_url) = true).
  { intros [| [| i]] Hi; [reflexivity | reflexivity | lia]. }
  assert (H3 : forall i, (i < 2)%nat -> delay_ok float_half i = true).
  { intros [| [| i]] Hi; [reflexivity | reflexivity | lia]. }
  exact (proj1 (proj1 http_get_json_retry_policy demo_url 3 float_half
                  flaky_world 2%nat H1 H2 H3)).
Defined.

(** The three retry cases of the specification, and a fetch that is told to
    make no attempt at all. *)
Example http_get_json_examples :
  fst (_http_get_json demo_url 3 float_half
         (scripted_world [HTTPFailure "HTTP Error 429" (Some 429) None]
            (Responded demo_payload)))
  = Ok demo_payload
  /\ (let r := _http_get_json demo_url 3 float_half
                 (scripted_world [] (HTTPFailure "HTTP Error 404" (Some 404)
                                       (Some "no such agent"))) in
      fst r = Raise (AgentPulseError
                       ("Agent Pulse API HTTP 404 for " ++ demo_url
                        ++ ". Body: no such agent"))
      /\ log (snd r) = [Requested demo_url])
  /\ (let r := _http_get_json demo_url 2 float_half
                 (scripted_world [] (HTTPFailure "HTTP Error 503" (Some 503) None)) in
      fst r = Raise (AgentPulseError
                       ("Agent Pulse API HTTP 503 for " ++ demo_url ++ ". Body: "))
      /\ log (snd r) = [Requested demo_url; Slept float_half;
                        Requested demo_url; Slept float_one;
                        Requested demo_url])
  /\ (let r := _http_get_json demo_url (-1) float_half
                 (scripted_world [] (Responded demo_payload)) in
      fst r = Raise (AgentPulseError
                       ("Agent Pulse API request failed for " ++ demo_url ++ ": None"))
      /\ log (snd r) = []).
Proof.
  repeat split; vm_compute; reflexivity.
Qed.

(** ** The batch filter *)

Lemma subseq_nil_l : forall (A : Type) (l : list A), subseq [] l.
Proof.
  intro A. induction l as [| a l IH]; constructor. exact IH.
Qed.

Lemma select_subseq :
  forall (A : Type) (agents : list A) verdicts, subseq (select agents verdicts) agents.
Proof.
  intro A. induction agents as [| a rest IH]; intro verdicts; [constructor |].
  destruct verdicts as [| [[|] | e] vs]; simpl.
  - apply subseq_nil_l.
  - apply subseq_keep, IH.
  - apply subseq_skip, IH.
  - apply subseq_skip, IH.
Qed.

Section FilterFacts.

Open Scope list_scope.

Context {Obj : Type}.
Variable shape : Obj -> agent.
Variable api_base_url : string.
Variable max_retries : Z.
Variable backoff_secs : F64.t.
Variable address_getter : option (Obj -> result string).

Let check := check_agent shape api_base_url max_retries backoff_secs address_getter.
Let loop := filter_loop shape api_base_url max_retries backoff_secs address_getter.


(** The loop, when no check stops it: the agents kept so far, then the
    ones selected. *)
Lemma filter_loop_runs :
  forall drop now secs agents kept w,
    drop = true \/ forallb is_ok (fst (run_checks (check now secs) agents w)) = true ->
    loop drop now secs agents kept w
    = (Ok (kept ++ select agents (fst (run_checks (check now secs) agents w))),
       snd (run_checks (check now secs) agents w)).
Proof.
  intros drop now secs. induction agents as [| a rest IH]; intros kept w Hrun.
  - simpl. unfold ret. rewrite app_nil_r. reflexivity.
  - cbn [run_checks] in *. unfold loop in *. cbn [filter_loop].
    fold check. destruct (check now secs a w) as [v w1] eqn:Ea.
    destruct (run_checks (check now secs) rest w1) as [vs w2] eqn:Er.
    assert (Hrest : drop = true
                    \/ forallb is_ok (fst (run_checks (check now secs) rest w1)) = true).
    { destruct Hrun as [Hd | Hall]; [left; exact Hd | right].
      rewrite Er. simpl in Hall. apply andb_true_iff in Hall as [_ Hall].
      exact Hall. }
    destruct v as [[|] | e]; cbn [select fst snd].
    + rewrite (IH _ _ Hrest), Er. cbn [fst snd].
      rewrite <- app_assoc. reflexivity.
    + rewrite (IH _ _ Hrest), Er. reflexivity.
    + destruct Hrun as [-> | Hall]; [| simpl in Hall; discriminate].
      rewrite (IH _ _ Hrest), Er. reflexivity.
Qed.

(** In strict mode the first check that raises ends the loop. *)
Lemma filter_loop_aborts :
  forall now secs before a rest kept w e wa,
    forallb is_ok (fst (run_checks (check now secs) before w)) = true ->
    check now secs a (snd (run_checks (check now secs) before w)) = (Raise e, wa) ->
    loop false now secs (before ++ a :: rest) kept w = (Raise e, wa).
Proof.
  intros now secs. induction before as [| b before IH];
    intros a rest kept w e wa Hok Ha.
  - simpl in Ha. unfold loop. cbn [app filter_loop]. fold check.
    rewrite Ha. reflexivity.
  - cbn [run_checks] in *. unfold loop in *. cbn [app filter_loop]. fold check.
    destruct (check now secs b w) as [v w1] eqn:Eb.
    destruct (run_checks (check now secs) before w1) as [vs w2] eqn:Er.
    cbn [fst snd] in *. simpl in Hok. apply andb_true_iff in Hok as [Hv Hvs].
    assert (Hvs' : forallb is_ok (fst (run_checks (check now secs) before w1)) = true)
      by (rewrite Er; exact Hvs).
    assert (Ha' : check now secs a (snd (run_checks (check now secs) before w1))
                  = (Raise e, wa)) by (rewrite Er; exact Ha).
    destruct v as [[|] | e0]; [| | discriminate]; now apply IH.
Qed.




(** Either every check of a batch returns, or there is a first one that
    raises. *)
Lemma first_failure :
  forall (chk : Obj -> M bool) l w,
    forallb is_ok (fst (run_checks chk l w)) = true
    \/ exists before a rest e wa,
         l = before ++ a :: rest
         /\ forallb is_ok (fst (run_checks chk before w)) = true
         /\ chk a (snd (run_checks chk before w)) = (Raise e, wa).
Proof.
  intro chk. induction l as [| a l IH]; intro w; [left; reflexivity |].
  cbn [run_checks]. destruct (chk a w) as [v w1] eqn:Ea.
  destruct v as [b | e].
  - destruct (IH w1) as [Hall | (before & x & rest & e & wa & -> & Hb & Hx)].
    + left. destruct (run_checks chk l w1). exact Hall.
    + right. exists (a :: before), x, rest, e, wa. cbn [run_checks app].
      rewrite Ea. destruct (run_checks chk before w1). auto.
  - right. exists [], a, l, e, w1. auto.
Qed.

Lemma filter_alive_agents_unfold :
  forall drop agents th w secs,
    threshold_nonpositive th = Ok false -> threshold_window th = Ok secs ->
    filter_alive_agents shape api_base_url max_retries backoff_secs address_getter
      drop agents th w
    = loop drop (clock w) secs agents [] w.
Proof.
  intros drop agents th w secs Hpos Hwin.
  unfold filter_alive_agents, bind, lift. rewrite Hpos, Hwin. reflexivity.
Qed.

End FilterFacts.





(** The end-to-end case of the specification: of two agents, one alive ten
    seconds ago and one unknown to the server, [filter_alive] with [24h]
    keeps the first; asking again gives the same list. *)
Example filter_alive_end_to_end :
  let run := filter_alive (fun a => a) "https://pulse.example/" 3 float_half None true
               two_agents (PyStr "24h") in
  fst (run registry_world) = Ok [AgentStr "0xAA"]
  /\ fst (run (snd (run registry_world))) = fst (run registry_world).
Proof.
  split; vm_compute; reflexivity.
Qed.

(** With the default backoff of half a second, the waits after the first
    ten failed attempts are ones [time.sleep] takes: 0.5, 1, 2, ... seconds. *)
Example default_delays :
  forallb (delay_ok float_half) (seq 0 10) = true
  /\ map (delay float_half) (seq 0 3) = [float_half; float_one; F64.of_Z 2].
Proof.
  split; vm_compute; reflexivity.
Qed.

(** * Further properties of the module *)

(** ** Normal form of addresses *)

Lemma lower_char_idem : forall c, lower_char (lower_char c) = lower_char c.
Proof. intro c. by_char c. Qed.

Lemma lower_lowered : forall s, all_chars is_lowered (lower s) = true.
Proof.
  induction s as [| c s IH]; [reflexivity |]. simpl. rewrite IH.
  unfold is_lowered. rewrite lower_char_idem, Ascii.eqb_refl. reflexivity.
Qed.

Lemma lowered_lower : forall s, all_chars is_lowered s = true -> lower s = s.
Proof.
  induction s as [| c s IH]; [reflexivity |]. simpl. intro H.
  apply andb_true_iff in H as [Hc Hs]. apply Ascii.eqb_eq in Hc.
  rewrite Hc, (IH Hs). reflexivity.
Qed.

Lemma lower_app : forall a b, lower (a ++ b) = (lower a ++ lower b)%string.
Proof.
  induction a as [| c a IH]; intro b; simpl; [reflexivity | now rewrite IH].
Qed.

Lemma lower_blank : forall s, blank (lower s) = blank s.
Proof.
  unfold blank. induction s as [| c s IH]; [reflexivity |]. simpl.
  rewrite lower_char_space, IH. reflexivity.
Qed.

Lemma lower_trimmed : forall s, trimmed (lower s) = trimmed s.
Proof.
  intro s. unfold trimmed. rewrite last_char_lower.
  destruct s as [| c s]; [reflexivity |].
  cbn [lower first_char fails]. rewrite lower_char_space. f_equal.
  destruct (last_char (String c s)); simpl; [now rewrite lower_char_space | reflexivity].
Qed.

Lemma lower_is_empty : forall s, is_empty (lower s) = is_empty s.
Proof. destruct s; reflexivity. Qed.

Lemma strip_trimmed : forall t, trimmed t = true -> strip t = t.
Proof.
  intros t Ht. rewrite <- (strip_unique "" t "" eq_refl eq_refl Ht) at 2.
  simpl. rewrite str_app_nil_r. reflexivity.
Qed.

Lemma strip_lower : forall s, strip (lower s) = lower (strip s).
Proof.
  intro s. destruct (strip_split s) as (l & r & Hs & Hl & Hr & Ht).
  rewrite Hs at 1. rewrite !lower_app.
  apply strip_unique; rewrite ?lower_blank, ?lower_trimmed; assumption.
Qed.

Lemma strip_strip : forall s, strip (strip s) = strip s.
Proof.
  intro s. destruct (strip_split s) as (_ & _ & _ & _ & _ & Ht).
  now apply strip_trimmed.
Qed.

(** The last character of a text in two parts is the last of the second
    part, when there is one. *)
Lemma last_char_app :
  forall a b, b <> "" -> last_char (a ++ b) = last_char b.
Proof.
  intros a [| c b] H; [contradiction |]. apply last_char_app_cons.
Qed.

Lemma normalized_is_normal :
  forall s t, _normalize_address s = Ok t -> normal_address t = true.
Proof.
  intros s t H. unfold _normalize_address in H.
  destruct (strip_split s) as (_ & _ & _ & _ & _ & Ht).
  destruct (is_empty (strip s)) eqn:Hne; [discriminate |].
  unfold normal_address.
  destruct (startswith (strip s) "0x" || startswith (strip s) "0X")%bool eqn:Hp.
  - assert (Hrest : exists rest,
               (strip s = ("0x" ++ rest)%string \/ strip s = ("0X" ++ rest)%string)).
    { apply orb_true_iff in Hp as [Hp | Hp];
        apply startswith_iff in Hp as [rest Hp]; exists rest; auto. }
    destruct Hrest as [rest Hrest].
    assert (Hdrop : str_drop 2 (strip s) = rest)
      by (destruct Hrest as [-> | ->]; reflexivity).
    rewrite Hdrop in H. inversion H; subst t. clear H.
    assert (Hlast : fails is_space (last_char ("0x" ++ lower rest)) = true).
    { destruct rest as [| c rest]; [reflexivity |].
      rewrite last_char_app by discriminate. rewrite last_char_lower.
      unfold trimmed in Ht. apply andb_true_iff in Ht as [_ Ht].
      assert (E : last_char (strip s) = last_char (String c rest)).
      { destruct Hrest as [-> | ->]; apply last_char_app; discriminate. }
      rewrite E in Ht. destruct (last_char (String c rest)); [| reflexivity].
      simpl in *. rewrite lower_char_space. exact Ht. }
    unfold trimmed. change ("0x" ++ lower rest)%string
      with (String "0" (String "x" (lower rest))) in Hlast.
    rewrite Hlast. cbn [is_empty negb first_char fails andb all_chars].
    rewrite lower_lowered. reflexivity.
  - inversion H; subst t.
    rewrite lower_is_empty, Hne, lower_trimmed, Ht, lower_lowered. reflexivity.
Qed.

Lemma normal_is_fixed :
  forall t, normal_address t = true -> _normalize_address t = Ok t.
Proof.
  intros t H. unfold normal_address in H.
  apply andb_true_iff in H as [H Hlow]. apply andb_true_iff in H as [Hne Ht].
  apply negb_true_iff in Hne.
  unfold _normalize_address. rewrite (strip_trimmed _ Ht), Hne.
  destruct (startswith t "0x") eqn:E1.
  - apply startswith_iff in E1 as [rest ->]. cbn [orb str_drop append].
    cbn [append all_chars] in Hlow.
    apply andb_true_iff in Hlow as [_ Hlow]. apply andb_true_iff in Hlow as [_ Hlow].
    rewrite (lowered_lower _ Hlow). reflexivity.
  - destruct (startswith t "0X") eqn:E2.
    + apply startswith_iff in E2 as [rest ->]. cbn [append all_chars] in Hlow.
      apply andb_true_iff in Hlow as [_ Hlow]. apply andb_true_iff in Hlow as [Hx _].
      discriminate.
    + cbn [orb]. rewrite (lowered_lower _ Hlow). reflexivity.
Qed.

(** X1. Normalising is idempotent: what [_normalize_address] returns is
    never empty, has no whitespace at its ends and no upper-case letter, and
    normalising it again returns it unchanged. The addresses it leaves alone
    are exactly the ones of that form. *)
Theorem normalize_address_idempotent :
  (forall s t,
      _normalize_address s = Ok t ->
      normal_address t = true /\ _normalize_address t = Ok t)
  /\ (forall t, _normalize_address t = Ok t <-> normal_address t = true).
Proof.
  split.
  - intros s t H. pose proof (normalized_is_normal _ _ H) as Hn.
    split; [exact Hn | now apply normal_is_fixed].
  - intro t. split; [apply normalized_is_normal | apply normal_is_fixed].
Qed.

Lemma normalize_address_idempotent_witness :
  normal_address "0xdeadbeef" = true
  /\ _normalize_address "0xdeadbeef" = Ok "0xdeadbeef".
Proof.
  exact (proj1 normalize_address_idempotent "  0XdeadBEEF " "0xdeadbeef" eq_refl).
Defined.

(** ** Address extraction *)

Lemma normalize_address_ok :
  forall s, is_empty (strip s) = false -> exists t, _normalize_address s = Ok t.
Proof.
  intros s H. unfold _normalize_address. rewrite H.
  destruct (startswith (strip s) "0x" || startswith (strip s) "0X")%bool;
    eexists; reflexivity.
Qed.

Lemma normalize_address_raises :
  forall s e, _normalize_address s = Raise e -> e = ValueError "Empty address".
Proof.
  intros s e H. unfold _normalize_address in H.
  destruct (is_empty (strip s)); [now inversion H |].
  destruct (startswith (strip s) "0x" || startswith (strip s) "0X")%bool;
    discriminate.
Qed.

Lemma probe_found :
  forall lookup pre k post v,
    (forall k', In k' pre -> usable (lookup k') = false) ->
    lookup k = PyStr v -> usable (PyStr v) = true ->
    probe lookup (pre ++ k :: post) = Some v.
Proof.
  intros lookup. induction pre as [| p pre IH]; intros k post v Hpre Hk Hv.
  - simpl. rewrite Hk. simpl in Hv. rewrite Hv. reflexivity.
  - cbn [app probe]. pose proof (Hpre p (or_introl eq_refl)) as Hp.
    assert (Hrec : probe lookup (pre ++ k :: post) = Some v).
    { apply IH; auto. intros k' Hin. apply Hpre. now right. }
    destruct (lookup p) as [| | | | value | |]; try exact Hrec.
    simpl in Hp. rewrite Hp. exact Hrec.
Qed.

Lemma probe_none :
  forall lookup names,
    probe lookup names = None <->
    forall k, In k names -> usable (lookup k) = false.
Proof.
  intro lookup. induction names as [| n names IH]; simpl.
  - split; [intros _ k [] | reflexivity].
  - split.
    + intros H k [<- | Hin].
      * destruct (lookup n) as [| | | | value | |]; try reflexivity.
        simpl. destruct (negb (is_empty (strip value))); [discriminate | reflexivity].
      * apply IH; [| exact Hin].
        destruct (lookup n) as [| | | | value | |]; try exact H.
        destruct (negb (is_empty (strip value))); [discriminate | exact H].
    + intro H. pose proof (H n (or_introl eq_refl)) as Hn.
      assert (Hrec : probe lookup names = None) by (apply IH; auto).
      destruct (lookup n) as [| | | | value | |]; try exact Hrec.
      simpl in Hn. rewrite Hn. exact Hrec.
Qed.

Lemma probe_some :
  forall lookup names v,
    probe lookup names = Some v ->
    usable (PyStr v) = true /\ exists k, In k names /\ lookup k = PyStr v.
Proof.
  intro lookup. induction names as [| n names IH]; intros v H; [discriminate |].
  simpl in H.
  assert (Hrec : probe lookup names = Some v ->
                 usable (PyStr v) = true
                 /\ exists k, In k (n :: names) /\ lookup k = PyStr v).
  { intro Hp. destruct (IH v Hp) as (Hu & k & Hin & Hk).
    split; [exact Hu |]. exists k. split; [now right | exact Hk]. }
  destruct (lookup n) as [| | | | value | |] eqn:En; try (now apply Hrec).
  destruct (negb (is_empty (strip value))) eqn:Eu; [| now apply Hrec].
  inversion H; subst value. split; [exact Eu |].
  exists n. split; [now left | exact En].
Qed.

Lemma probe_nothing : forall names, probe (fun _ => PyNone) names = None.
Proof. induction names as [| n names IH]; [reflexivity | exact IH]. Qed.

(** What the extractor does with an agent that is not a string. *)
Lemma get_agent_address_probe :
  forall a,
    is_str_agent a = false ->
    _get_agent_address a =
    match probe (agent_lookup a) address_keys with
    | Some value => _normalize_address value
    | None => Raise (ValueError msg_no_address)
    end.
Proof.
  intros [s | d | attrs] H; [discriminate | |].
  - unfold _get_agent_address, agent_lookup.
    destruct (probe (dict_get d) address_keys); [reflexivity |].
    unfold probe_attributes, agent_getattr.
    rewrite (probe_nothing address_keys). reflexivity.
  - reflexivity.
Qed.

(** X2. The five names are probed in their fixed order: for a [dict] as for
    an object, the address comes from the first name bound to a string that
    is not blank, whatever the later names hold; names bound to a blank
    string or to something that is not a string are passed over. The address
    found is normalised, which cannot fail. *)
Theorem get_agent_address_priority :
  forall a before name after value,
    is_str_agent a = false ->
    address_keys = (before ++ name :: after)%list ->
    (forall k, In k before -> usable (agent_lookup a k) = false) ->
    agent_lookup a name = PyStr value ->
    strip value <> "" ->
    _get_agent_address a = _normalize_address value
    /\ exists addr, _normalize_address value = Ok addr.
Proof.
  intros a before name after value Ha Hkeys Hbefore Hname Hvalue.
  assert (Hu : is_empty (strip value) = false)
    by (destruct (strip value); [contradiction | reflexivity]).
  split; [| now apply normalize_address_ok].
  rewrite (get_agent_address_probe a Ha), Hkeys.
  rewrite (probe_found _ before name after value Hbefore Hname); [reflexivity |].
  simpl. rewrite Hu. reflexivity.
Qed.

Lemma get_agent_address_priority_witness :
  _get_agent_address
    (AgentDict [("agent_address", PyStr "0xCD"); ("walletAddress", PyStr " 0xAB ");
                ("wallet_address", PyStr "  "); ("address", PyInt 5)])
  = _normalize_address " 0xAB "
  /\ exists addr, _normalize_address " 0xAB " = Ok addr.
Proof.
  refine (get_agent_address_priority
            (AgentDict [("agent_address", PyStr "0xCD"); ("walletAddress", PyStr " 0xAB ");
                        ("wallet_address", PyStr "  "); ("address", PyInt 5)])
            ["address"; "wallet_address"] "walletAddress"
            ["agent_address"; "agentAddress"] " 0xAB "
            eq_refl eq_refl _ eq_refl _).
  - intros k [<- | [<- | []]]; reflexivity.
  - discriminate.
Defined.

(** X3. Extraction fails only with [ValueError]: for a string exactly when
    it is blank, for a [dict] or an object exactly when none of the five
    names is bound to a string that is not blank. Every address it returns
    is in normal form. *)
Theorem get_agent_address_outcomes :
  forall a,
    (forall e, _get_agent_address a = Raise e -> exists msg, e = ValueError msg)
    /\ (forall addr, _get_agent_address a = Ok addr -> normal_address addr = true)
    /\ match a with
       | AgentStr s =>
           _get_agent_address a = Raise (ValueError "Empty address")
           <-> strip s = ""
       | _ =>
           _get_agent_address a = Raise (ValueError msg_no_address)
           <-> forall k, In k address_keys -> usable (agent_lookup a k) = false
       end.
Proof.
  assert (Hother : forall a,
             is_str_agent a = false ->
             (forall e, _get_agent_address a = Raise e -> exists msg, e = ValueError msg)
             /\ (forall addr, _get_agent_address a = Ok addr -> normal_address addr = true)
             /\ (_get_agent_address a = Raise (ValueError msg_no_address)
                 <-> forall k, In k address_keys -> usable (agent_lookup a k) = false)).
  { intros a Ha. rewrite (get_agent_address_probe a Ha).
    destruct (probe (agent_lookup a) address_keys) as [value |] eqn:Ep.
    - destruct (probe_some _ _ _ Ep) as (Hu & _). simpl in Hu.
      apply negb_true_iff in Hu.
      destruct (normalize_address_ok value Hu) as [t Ht].
      split; [| split].
      + intros e He. apply normalize_address_raises in He. eauto.
      + intros addr Haddr. now apply (normalized_is_normal value).
      + rewrite Ht. split; [discriminate |].
        intro Hnone. apply probe_none in Hnone. congruence.
    - split; [| split].
      + intros e He. inversion He. eauto.
      + discriminate.
      + split; [intros _; now apply probe_none | reflexivity]. }
  intros [s | d | attrs]; [| now apply Hother | now apply Hother].
  cbn [_get_agent_address]. split; [| split].
  - intros e He. apply normalize_address_raises in He. eauto.
  - apply normalized_is_normal.
  - unfold _normalize_address. destruct (strip s) eqn:E; cbn [is_empty].
    + split; reflexivity.
    + split; [| discriminate].
      destruct (startswith _ "0x" || startswith _ "0X")%bool; discriminate.
Qed.

Lemma get_agent_address_outcomes_witness :
  _get_agent_address (AgentObj [("name", PyStr "alice"); ("address", PyStr "   ")])
  = Raise (ValueError msg_no_address).
Proof.
  apply (proj2 (proj2 (proj2 (get_agent_address_outcomes
                                (AgentObj [("name", PyStr "alice");
                                           ("address", PyStr "   ")]))))).
  intros k [<- | [<- | [<- | [<- | [<- | []]]]]]; reflexivity.
Defined.

(** ** What a fetch does to the world *)

Lemma time_sleep_cases :
  forall d w r w',
    time_sleep d w = (r, w') ->
    (r = Ok tt /\ w' = extend w [Slept d]) \/ (exists e, r = Raise e /\ w' = w).
Proof.
  intros d w r w' H. unfold time_sleep, raise in H.
  destruct d as [s | s | | s m e];
    repeat match type of H with
           | context [if ?c then _ else _] => destruct c
           end;
    inversion H; subst;
    solve [left; split; reflexivity | right; eauto].
Qed.

Lemma only_url_app :
  forall url l1 l2,
    only_url url (l1 ++ l2) = (only_url url l1 && only_url url l2)%bool.
Proof.
  intros url. induction l1 as [| [u | d] l1 IH]; intro l2; simpl; rewrite ?IH;
    [reflexivity | apply andb_assoc | reflexivity].
Qed.

(** The loop of the fetch only adds to the log: requests to its own URL, at
    most one per iteration it has left, and sleeps, at most one per request.
    When the iterations left are the ones [range] gives, the sleeps are one
    fewer. *)
Lemma attempts_history :
  forall url mr bo rem j last w r w',
    attempts url mr bo rem j last w = (r, w') ->
    exists l,
      w' = extend w l
      /\ only_url url l = true
      /\ (requests l <= rem)%nat
      /\ (rem <> 0%nat -> (1 <= requests l)%nat)
      /\ (Z.of_nat rem = mr + 1 - j -> (length (sleeps l) <= rem - 1)%nat).
Proof.
  intros url mr bo. induction rem as [| rem IH]; intros j last w r w' H.
  - inversion H; subst. exists []. rewrite extend_nil.
    repeat split; try reflexivity; simpl; try lia.
  - cbn [attempts] in H. unfold urlopen in H.
    assert (Hone : forall r0,
               (r0, record (Requested url) w) = (r, w') ->
               exists l,
                 w' = extend w l /\ only_url url l = true
                 /\ (requests l <= S rem)%nat
                 /\ (S rem <> 0%nat -> (1 <= requests l)%nat)
                 /\ (Z.of_nat (S rem) = mr + 1 - j ->
                     (length (sleeps l) <= S rem - 1)%nat)).
    { intros r0 E. inversion E; subst. exists [Requested url].
      simpl. rewrite String.eqb_refl. repeat split; lia. }
    assert (Hcont : forall text,
               (j >=? mr) = false ->
               bind (lift (sleep_for bo j))
                 (fun d => bind (time_sleep d)
                             (fun _ => attempts url mr bo rem (j + 1) (Some text)))
                 (record (Requested url) w) = (r, w') ->
               exists l,
                 w' = extend w l /\ only_url url l = true
                 /\ (requests l <= S rem)%nat
                 /\ (S rem <> 0%nat -> (1 <= requests l)%nat)
                 /\ (Z.of_nat (S rem) = mr + 1 - j ->
                     (length (sleeps l) <= S rem - 1)%nat)).
    { intros text Hlt E. unfold bind, lift in E.
      rewrite Z.geb_leb in Hlt. apply Z.leb_gt in Hlt.
      destruct (sleep_for bo j) as [d | e]; [| now apply (Hone (Raise e))].
      destruct (time_sleep d (record (Requested url) w)) as [[[] | e] w2] eqn:Es;
        apply time_sleep_cases in Es as [[Hr Hw] | (e' & Hr & Hw)];
        try discriminate.
      - subst w2. apply IH in E as (l & Hw' & Hu & Hreq & _ & Hsl).
        exists (Requested url :: Slept d :: l).
        rewrite Hw', record_extend, !extend_extend. simpl.
        rewrite String.eqb_refl, Hu.
        repeat split; lia.
      - subst w2. now apply (Hone (Raise e)). }
    destruct (server w (log w) url) as [p | text st body | text | e].
    + now apply (Hone (Ok p)).
    + destruct ((j >=? mr) || negb (retryable st))%bool eqn:Ec.
      * now apply (Hone (Raise (AgentPulseError
                                  (http_error_message url st
                                     match body with Some b => b | None => "" end)))).
      * apply orb_false_iff in Ec as [Hlt _]. now apply (Hcont text).
    + destruct (j >=? mr) eqn:Ec.
      * now apply (Hone (Raise (AgentPulseError (request_failed_message url text)))).
      * now apply (Hcont text).
    + now apply (Hone (Raise e)).
Qed.

(** X4. Whatever the server does, a fetch only appends to the history: all
    its requests go to the URL it was given, there are at most
    [max_retries + 1] of them and at least one when [max_retries] is not
    negative, and it sleeps at most [max_retries] times. With a negative
    [max_retries] it asks nothing and raises [AgentPulseError]. *)
Theorem http_get_json_history :
  forall url mr bo w,
    exists l,
      snd (_http_get_json url mr bo w) = extend w l
      /\ only_url url l = true
      /\ (requests l <= Z.to_nat (mr + 1))%nat
      /\ (length (sleeps l) <= Z.to_nat mr)%nat
      /\ (0 <= mr -> (1 <= requests l)%nat)
      /\ (mr < 0 ->
          l = []
          /\ fst (_http_get_json url mr bo w)
             = Raise (AgentPulseError
                        ("Agent Pulse API request failed for " ++ url ++ ": None"))).
Proof.
  intros url mr bo w.
  destruct (_http_get_json url mr bo w) as [r w'] eqn:E.
  destruct (Z_lt_le_dec mr 0) as [Hneg | Hpos].
  - exists []. unfold _http_get_json in E.
    replace (Z.to_nat (mr + 1)) with 0%nat in E by lia.
    inversion E; subst. rewrite extend_nil. repeat split; simpl; lia.
  - unfold _http_get_json in E.
    apply attempts_history in E as (l & Hw & Hu & Hreq & Hmin & Hsl).
    exists l. repeat split; try assumption; lia.
Qed.

Lemma http_get_json_history_witness :
  exists l,
    snd (_http_get_json demo_url 1 float_half flaky_world) = extend flaky_world l
    /\ only_url demo_url l = true
    /\ (requests l <= 2)%nat /\ (length (sleeps l) <= 1)%nat /\ (1 <= requests l)%nat.
Proof.
  destruct (http_get_json_history demo_url 1 float_half flaky_world)
    as (l & Hw & Hu & Hreq & Hsl & Hmin & _).
  exists l. repeat split; try assumption. apply Hmin. lia.
Defined.

Lemma never_crashes_extend :
  forall w l, never_crashes w -> never_crashes (extend w l).
Proof. intros w l H. exact H. Qed.

Lemma attempts_errors :
  forall url mr bo,
    (forall i, Z.of_nat i < mr -> delay_ok bo i = true) ->
    forall rem j last w,
      never_crashes w ->
      match fst (attempts url mr bo rem (Z.of_nat j) last w) with
      | Ok _ => True
      | Raise e => exists msg, e = AgentPulseError msg
      end.
Proof.
  intros url mr bo Hok. induction rem as [| rem IH]; intros j last w Hw.
  - simpl. eauto.
  - cbn [attempts]. unfold urlopen.
    assert (Hcont : forall text,
               (Z.of_nat j >=? mr) = false ->
               match fst (bind (lift (sleep_for bo (Z.of_nat j)))
                            (fun d => bind (time_sleep d)
                                        (fun _ => attempts url mr bo rem
                                                    (Z.of_nat j + 1) (Some text)))
                            (record (Requested url) w)) with
               | Ok _ => True
               | Raise e => exists msg, e = AgentPulseError msg
               end).
    { intros text Hlt. rewrite Z.geb_leb in Hlt. apply Z.leb_gt in Hlt.
      destruct (sleep_for_delay bo j (Hok j Hlt)) as [Hd Hs].
      unfold bind, lift. rewrite Hd, (time_sleep_accepts _ _ Hs).
      replace (Z.of_nat j + 1) with (Z.of_nat (S j)) by lia.
      apply IH. exact Hw. }
    pose proof (Hw (log w) url) as Hsrv.
    destruct (server w (log w) url) as [p | text st body | text | e].
    + exact I.
    + destruct ((Z.of_nat j >=? mr) || negb (retryable st))%bool eqn:Ec.
      * simpl. eauto.
      * apply orb_false_iff in Ec as [Hlt _]. now apply Hcont.
    + destruct (Z.of_nat j >=? mr) eqn:Ec; [simpl; eauto | now apply Hcont].
    + exfalso. exact (Hsrv e eq_refl).
Qed.

(** X5. [AgentPulseError] is the only exception of a fetch, as long as each
    attempt ends the way HTTP or the network can end it and the backoff
    gives waits that can be slept: then the fetch returns the payload or
    raises [AgentPulseError], whatever the number of retries. *)
Theorem http_get_json_only_request_error :
  forall url mr bo w,
    never_crashes w ->
    (forall i, Z.of_nat i < mr -> delay_ok bo i = true) ->
    (exists payload, fst (_http_get_json url mr bo w) = Ok payload)
    \/ (exists msg, fst (_http_get_json url mr bo w) = Raise (AgentPulseError msg)).
Proof.
  intros url mr bo w Hw Hok.
  pose proof (attempts_errors url mr bo Hok (Z.to_nat (mr + 1)) 0%nat None w Hw) as H.
  unfold _http_get_json. simpl Z.of_nat in H.
  destruct (fst (attempts url mr bo (Z.to_nat (mr + 1)) 0 None w)) as [p | e].
  - left. eauto.
  - right. destruct H as [msg ->]. eauto.
Qed.

Lemma http_get_json_only_request_error_witness :
  (exists payload, fst (_http_get_json demo_url 1 float_half flaky_world) = Ok payload)
  \/ (exists msg,
         fst (_http_get_json demo_url 1 float_half flaky_world)
         = Raise (AgentPulseError msg)).
Proof.
  apply http_get_json_only_request_error.
  - intros history url e. unfold flaky_world, scripted_world. cbn [server].
    destruct (requests history) as [| [| [| [| n]]]]; simpl; intro H; discriminate H.
  - intros [| i] Hi; [reflexivity | lia].
Defined.

(** ** The request URL *)

Lemma rstrip_by_more :
  forall p s r, all_chars p r = true -> rstrip_by p (s ++ r) = rstrip_by p s.
Proof.
  intros p s r Hr.
  destruct (rstrip_by_split p s) as (r0 & Hs & Hr0 & Hlast).
  rewrite Hs at 1. rewrite str_app_assoc.
  apply rstrip_by_app; [| exact Hlast].
  rewrite all_chars_app, Hr0, Hr. reflexivity.
Qed.

(** X6. Slashes at the end of the base URL do not count: however many the
    caller writes, the status of an address is asked at the same URL, which
    is the base without them followed by [/api/v2/agent/<address>/alive]. *)
Theorem status_url_ignores_trailing_slashes :
  forall base slashes norm,
    all_chars is_slash slashes = true ->
    status_url (base ++ slashes) norm = status_url base norm
    /\ fails is_slash (last_char (rstrip_by is_slash base)) = true.
Proof.
  intros base slashes norm H. unfold status_url.
  rewrite (rstrip_by_more _ _ _ H). split; [reflexivity |].
  destruct (rstrip_by_split is_slash base) as (r & _ & _ & Hlast). exact Hlast.
Qed.

Lemma status_url_ignores_trailing_slashes_witness :
  status_url ("https://pulse.example" ++ "//") "0xab"
  = status_url "https://pulse.example" "0xab"
  /\ fails is_slash (last_char (rstrip_by is_slash "https://pulse.example")) = true.
Proof.
  exact (status_url_ignores_trailing_slashes "https://pulse.example" "//" "0xab" eq_refl).
Defined.

(** ** One status request *)

Lemma get_agent_status_history :
  forall addr base mr bo w norm,
    _normalize_address addr = Ok norm ->
    exists l,
      snd (get_agent_status addr base mr bo w) = extend w l
      /\ only_url (status_url base norm) l = true
      /\ (requests l <= Z.to_nat (mr + 1))%nat.
Proof.
  intros addr base mr bo w norm Hn.
  unfold get_agent_status, bind, lift. rewrite Hn.
  destruct (_http_get_json (status_url base norm) mr bo w) as [r w1] eqn:E.
  unfold _http_get_json in E.
  apply attempts_history in E as (l & Hw & Hu & Hreq & _).
  exists l. split; [| auto].
  destruct r as [p | e]; exact Hw.
Qed.

(** X7. A blank address makes [get_agent_status] raise [ValueError] without
    asking the server anything. Any other address is normalised first, and
    all the requests made for it, at most [max_retries + 1], go to the status
    URL of the normalised address. *)
Theorem get_agent_status_requests :
  forall addr base mr bo w,
    (strip addr = "" ->
     get_agent_status addr base mr bo w = (Raise (ValueError "Empty address"), w))
    /\ (forall norm,
           _normalize_address addr = Ok norm ->
           exists l,
             snd (get_agent_status addr base mr bo w) = extend w l
             /\ only_url (status_url base norm) l = true
             /\ (requests l <= Z.to_nat (mr + 1))%nat).
Proof.
  intros addr base mr bo w. split.
  - intro H. unfold get_agent_status, bind, lift, _normalize_address.
    rewrite H. reflexivity.
  - intros norm Hn. now apply get_agent_status_history.
Qed.

Lemma get_agent_status_requests_witness :
  get_agent_status "   " "https://pulse.example" 3 float_half flaky_world
  = (Raise (ValueError "Empty address"), flaky_world).
Proof.
  exact (proj1 (get_agent_status_requests "   " "https://pulse.example" 3 float_half
                  flaky_world) eq_refl).
Defined.

(** X8. Whenever the fetch hands back a JSON object, the status carries the
    normalised address, the object as it came, and as streak the integer
    found under [streakCount], or under [streak] when the first is missing or
    null: nothing when there is no value or when [int] refuses it. When the
    fetch hands back JSON that is not an object, [get_agent_status] raises
    [AttributeError]. *)
Theorem status_fields :
  forall addr base mr bo w norm payload w',
    _normalize_address addr = Ok norm ->
    _http_get_json (status_url base norm) mr bo w = (Ok payload, w') ->
    match payload with
    | PyDict d =>
        exists st,
          get_agent_status addr base mr bo w = (Ok st, w')
          /\ address st = norm
          /\ raw st = d
          /\ streak_count st =
             match (match dict_get d "streakCount" with
                    | PyNone => dict_get d "streak"
                    | v => v
                    end) with
             | PyNone => None
             | v => match py_int v with
                    | Ok n => Some n
                    | Raise _ => None
                    end
             end
    | _ =>
        exists msg,
          get_agent_status addr base mr bo w = (Raise (AttributeError msg), w')
    end.
Proof.
  intros addr base mr bo w norm payload w' Hn Hf.
  rewrite (get_agent_status_of_fetch _ _ _ _ _ _ _ _ Hn Hf).
  destruct payload as [| b | z | f | s | l | d]; try (eexists; reflexivity).
  eexists. split; [reflexivity |]. cbn [address raw streak_count].
  split; [reflexivity | split; [reflexivity |]].
  rewrite get_either_eq. unfold normalize_streak.
  destruct (match dict_get d "streakCount" with
            | PyNone => dict_get d "streak"
            | v => v
            end) eqn:E; cbn [is_None]; try reflexivity;
    match goal with
    | |- context [py_int ?v] => destruct (py_int v); reflexivity
    end.
Qed.

Lemma status_fields_witness :
  exists msg,
    get_agent_status "0xAB" "https://pulse.example" 3 float_half list_world
    = (Raise (AttributeError msg),
       record (Requested "https://pulse.example/api/v2/agent/0xab/alive") list_world).
Proof.
  exact (status_fields "0xAB" "https://pulse.example" 3 float_half list_world
           "0xab" (PyList [PyInt 1])
           (record (Requested "https://pulse.example/api/v2/agent/0xab/alive") list_world)
           eq_refl eq_refl).
Defined.

Example streak_examples :
  normalize_streak (PyInt 5) = Some 5
  /\ normalize_streak (PyStr "12") = Some 12
  /\ normalize_streak (PyStr "many") = None
  /\ normalize_streak (PyStr ("7" ++ String (ascii_of_nat 31) "")) = None
  /\ normalize_streak (PyBool true) = Some 1
  /\ normalize_streak PyNone = None.
Proof.
  repeat split; reflexivity.
Qed.

(** ** The batch as a whole *)

Section BatchFacts.

Open Scope list_scope.

Context {Obj : Type}.
Variable shape : Obj -> agent.
Variable api_base_url : string.
Variable max_retries : Z.
Variable backoff_secs : F64.t.
Variable address_getter : option (Obj -> result string).

Let check := check_agent shape api_base_url max_retries backoff_secs address_getter.
Let loop := filter_loop shape api_base_url max_retries backoff_secs address_getter.
(** A check is a fetch of the status, which knows nothing of the clock or of
    the window, followed by the recency test. *)
Lemma check_agent_split :
  forall a w,
    exists (fetched : result AgentPulseStatus) (w1 : world),
      forall now secs,
        check now secs a w
        = (match fetched with
           | Ok st => Ok (_is_recent st now secs)
           | Raise e => Raise e
           end, w1).
Proof.
  intros a w. unfold check, check_agent, bind, lift, ret.
  destruct (match address_getter with
            | Some getter => getter a
            | None => _get_agent_address (shape a)
            end) as [addr | e].
  - destruct (get_agent_status addr api_base_url max_retries backoff_secs w)
      as [[st | e] w1].
    + exists (Ok st), w1. reflexivity.
    + exists (Raise e), w1. reflexivity.
  - exists (Raise e), w. reflexivity.
Qed.

Lemma check_agent_history :
  forall now secs a w,
    exists l,
      snd (check now secs a w) = extend w l
      /\ (requests l <= Z.to_nat (max_retries + 1))%nat.
Proof.
  intros now secs a w. unfold check, check_agent, bind, lift, ret.
  assert (Hnone : exists l, w = extend w l
                            /\ (requests l <= Z.to_nat (max_retries + 1))%nat).
  { exists []. rewrite extend_nil. split; [reflexivity | simpl; lia]. }
  destruct (match address_getter with
            | Some getter => getter a
            | None => _get_agent_address (shape a)
            end) as [addr | e]; [| exact Hnone].
  destruct (_normalize_address addr) as [norm | e] eqn:En.
  - destruct (get_agent_status_history addr api_base_url max_retries backoff_secs
                w norm En) as (l & Hw & _ & Hreq).
    exists l. split; [| exact Hreq].
    destruct (get_agent_status addr api_base_url max_retries backoff_secs w)
      as [[st | e] w1]; exact Hw.
  - unfold get_agent_status, bind, lift. rewrite En. exact Hnone.
Qed.

Lemma filter_loop_history :
  forall drop now secs agents kept w,
    exists l,
      snd (loop drop now secs agents kept w) = extend w l
      /\ (requests l <= length agents * Z.to_nat (max_retries + 1))%nat.
Proof.
  intros drop now secs. induction agents as [| a rest IH]; intros kept w.
  - exists []. simpl. rewrite extend_nil. split; [reflexivity | simpl; lia].
  - unfold loop in *. cbn [filter_loop]. fold check.
    destruct (check_agent_history now secs a w) as (l1 & Hw1 & Hreq1).
    destruct (check now secs a w) as [v w1]. simpl in Hw1. subst w1.
    assert (Hgo : forall kept',
               exists l,
                 snd (filter_loop shape api_base_url max_retries backoff_secs
                        address_getter drop now secs rest kept' (extend w l1))
                 = extend w l
                 /\ (requests l
                     <= length (a :: rest) * Z.to_nat (max_retries + 1))%nat).
    { intro kept'. destruct (IH kept' (extend w l1)) as (l2 & Hw2 & Hreq2).
      exists (l1 ++ l2). rewrite Hw2, extend_extend, requests_app.
      split; [reflexivity | simpl; lia]. }
    destruct v as [[|] | e]; try apply Hgo.
    destruct drop; [apply Hgo |].
    exists l1. split; [reflexivity | simpl; lia].
Qed.

(** When the loop returns a list, the list is the selection. *)
Lemma filter_loop_returns :
  forall drop now secs agents w l w',
    loop drop now secs agents [] w = (Ok l, w') ->
    l = select agents (fst (run_checks (check now secs) agents w))
    /\ w' = snd (run_checks (check now secs) agents w)
    /\ (drop = true
        \/ forallb is_ok (fst (run_checks (check now secs) agents w)) = true).
Proof.
  intros drop now secs agents w l w' H.
  assert (Hrun : drop = true
                 \/ forallb is_ok (fst (run_checks (check now secs) agents w)) = true).
  { destruct drop; [left; reflexivity | right].
    destruct (first_failure (check now secs) agents w)
      as [Hall | (before & a & rest & e & wa & E & Hb & Ha)]; [exact Hall |].
    exfalso. rewrite E in H. unfold loop, check in *.
    rewrite (filter_loop_aborts shape api_base_url max_retries backoff_secs
               address_getter _ _ _ _ _ _ _ _ _ Hb Ha) in H.
    discriminate. }
  unfold loop, check in *.
  rewrite (filter_loop_runs shape api_base_url max_retries backoff_secs
             address_getter drop now secs agents [] w Hrun) in H.
  inversion H. auto.
Qed.

End BatchFacts.

(** X9. A batch costs at most [max_retries + 1] requests per agent, in
    either error mode and whatever the servers answer, and it only adds to
    the history. With no agent, or with a threshold that is zero or
    negative, it asks nothing. *)
Theorem filter_alive_agents_request_bound :
  forall (Obj : Type) (shape : Obj -> agent) api mr bo getter drop
         (agents : list Obj) th w,
    exists l,
      snd (filter_alive_agents shape api mr bo getter drop agents th w) = extend w l
      /\ (requests l <= length agents * Z.to_nat (mr + 1))%nat
      /\ (agents = [] -> l = [])
      /\ (threshold_nonpositive th = Ok true -> l = []).
Proof.
  intros Obj shape api mr bo getter drop agents th w.
  unfold filter_alive_agents, bind, lift.
  assert (Hnone : exists l,
             w = extend w l
             /\ (requests l <= length agents * Z.to_nat (mr + 1))%nat
             /\ (agents = [] -> l = [])
             /\ (threshold_nonpositive th = Ok true -> l = [])).
  { exists []. rewrite extend_nil. repeat split; simpl; lia. }
  destruct (threshold_nonpositive th) as [[|] | e]; try exact Hnone.
  destruct (threshold_window th) as [secs | e]; [| exact Hnone].
  destruct (filter_loop_history shape api mr bo getter drop (clock w) secs agents [] w)
    as (l & Hw & Hreq).
  exists l. split; [exact Hw | split; [exact Hreq | split; [| discriminate]]].
  intros ->. simpl in Hw. unfold ret in Hw. simpl in Hw.
  destruct w as [sv ck lg]. unfold extend in Hw. simpl in Hw.
  inversion Hw as [Hlog]. rewrite <- (app_nil_r lg) in Hlog at 1.
  apply app_inv_head in Hlog. symmetry. exact Hlog.
Qed.

Lemma filter_alive_agents_request_bound_witness :
  exists l,
    snd (filter_alive_agents (fun a => a) "https://pulse.example/" 3 float_half None
           true two_agents (PyInt 0) registry_world)
    = extend registry_world l
    /\ l = [].
Proof.
  destruct (filter_alive_agents_request_bound agent (fun a => a)
              "https://pulse.example/" 3 float_half None true two_agents (PyInt 0)
              registry_world) as (l & Hw & _ & _ & Hzero).
  exists l. split; [exact Hw | exact (Hzero eq_refl)].
Defined.

(** ** Wider windows *)

Lemma is_recent_wider :
  forall st now s1 s2,
    s1 <= s2 -> _is_recent st now s1 = true -> _is_recent st now s2 = true.
Proof.
  intros st now s1 s2 Hle. unfold _is_recent.
  destruct (last_pulse_timestamp st); [| trivial].
  rewrite !Z.leb_le. lia.
Qed.

(** The checks of a batch under two windows: the same requests, the same
    failures, and a selection that only grows with the window. *)
Lemma run_checks_wider :
  forall (Obj : Type) (shape : Obj -> agent) api mr bo getter now s1 s2,
    s1 <= s2 ->
    forall (agents : list Obj) w,
      snd (run_checks (check_agent shape api mr bo getter now s1) agents w)
      = snd (run_checks (check_agent shape api mr bo getter now s2) agents w)
      /\ map is_ok (fst (run_checks (check_agent shape api mr bo getter now s1) agents w))
         = map is_ok (fst (run_checks (check_agent shape api mr bo getter now s2) agents w))
      /\ subseq
           (select agents
              (fst (run_checks (check_agent shape api mr bo getter now s1) agents w)))
           (select agents
              (fst (run_checks (check_agent shape api mr bo getter now s2) agents w))).
Proof.
  intros Obj shape api mr bo getter now s1 s2 Hle.
  induction agents as [| a rest IH]; intro w.
  - simpl. repeat split. constructor.
  - cbn [run_checks].
    destruct (check_agent_split shape api mr bo getter a w) as (fetched & w1 & Hc).
    rewrite (Hc now s1), (Hc now s2).
    destruct (IH w1) as (Hw & Hok & Hsub).
    destruct (run_checks (check_agent shape api mr bo getter now s1) rest w1)
      as [vs1 wa].
    destruct (run_checks (check_agent shape api mr bo getter now s2) rest w1)
      as [vs2 wb].
    cbn [fst snd] in *. split; [exact Hw | split].
    + destruct fetched; simpl; rewrite Hok; reflexivity.
    + destruct fetched as [st | e]; cbn [select]; [| exact Hsub].
      pose proof (is_recent_wider st now s1 s2 Hle) as Hmono.
      destruct (_is_recent st now s1); destruct (_is_recent st now s2).
      * now apply subseq_keep.
      * specialize (Hmono eq_refl). discriminate.
      * now apply subseq_skip.
      * exact Hsub.
Qed.

Lemma forallb_map_is_ok :
  forall (l : list (result bool)), forallb is_ok l = forallb (fun b => b) (map is_ok l).
Proof.
  induction l as [| v l IH]; [reflexivity |]. simpl. rewrite IH. reflexivity.
Qed.

(** X10. Widening the window never loses an agent: if a batch returns a list
    under a window of [s1] seconds, then under any window of [s2 >= s1]
    seconds, with the same servers and the same clock, it makes the same
    requests and returns a list that contains the first one as a
    subsequence. *)
Theorem filter_alive_agents_wider_window :
  forall (Obj : Type) (shape : Obj -> agent) api mr bo getter drop
         (agents : list Obj) th1 th2 s1 s2 w l1 w',
    threshold_nonpositive th1 = Ok false -> threshold_window th1 = Ok s1 ->
    threshold_nonpositive th2 = Ok false -> threshold_window th2 = Ok s2 ->
    s1 <= s2 ->
    filter_alive_agents shape api mr bo getter drop agents th1 w = (Ok l1, w') ->
    exists l2,
      filter_alive_agents shape api mr bo getter drop agents th2 w = (Ok l2, w')
      /\ subseq l1 l2.
Proof.
  intros Obj shape api mr bo getter drop agents th1 th2 s1 s2 w l1 w'
         Hp1 Hw1 Hp2 Hw2 Hle H.
  rewrite (filter_alive_agents_unfold _ _ _ _ _ _ _ _ _ _ Hp1 Hw1) in H.
  rewrite (filter_alive_agents_unfold _ _ _ _ _ _ _ _ _ _ Hp2 Hw2).
  apply filter_loop_returns in H as (Hl & Hw' & Hrun).
  destruct (run_checks_wider Obj shape api mr bo getter (clock w) s1 s2 Hle agents w)
    as (Hsame & Hok & Hsub).
  assert (Hrun2 : drop = true
                  \/ forallb is_ok
                       (fst (run_checks (check_agent shape api mr bo getter (clock w) s2)
                               agents w)) = true).
  { destruct Hrun as [Hd | Hall]; [left; exact Hd | right].
    rewrite forallb_map_is_ok, <- Hok, <- forallb_map_is_ok. exact Hall. }
  rewrite (filter_loop_runs shape api mr bo getter drop (clock w) s2 agents [] w Hrun2).
  eexists. split.
  - rewrite Hw', Hsame. reflexivity.
  - rewrite Hl. exact Hsub.
Qed.

Lemma filter_alive_agents_wider_window_witness :
  exists l2,
    filter_alive_agents (fun a => a) "https://pulse.example/" 3 float_half None true
      two_agents (PyInt 24) registry_world
    = (Ok l2,
       extend registry_world
         [Requested "https://pulse.example/api/v2/agent/0xaa/alive";
          Requested "https://pulse.example/api/v2/agent/0xbb/alive"])
    /\ subseq [AgentStr "0xAA"] l2.
Proof.
  exact (filter_alive_agents_wider_window agent (fun a => a)
           "https://pulse.example/" 3 float_half None true two_agents
           (PyInt 1) (PyInt 24) 3600 86400 registry_world [AgentStr "0xAA"]
           (extend registry_world
              [Requested "https://pulse.example/api/v2/agent/0xaa/alive";
               Requested "https://pulse.example/api/v2/agent/0xbb/alive"])
           eq_refl eq_refl eq_refl eq_refl ltac:(lia) eq_refl).
Defined.

(** ** Thresholds as text *)

Lemma strip_padding :
  forall l s r, blank l = true -> blank r = true -> strip (l ++ s ++ r) = strip s.
Proof.
  intros l s r Hl Hr.
  destruct (strip_split s) as (l1 & r1 & Hs & Hl1 & Hr1 & Ht).
  rewrite Hs at 1.
  replace (l ++ (l1 ++ strip s ++ r1) ++ r)%string
    with ((l ++ l1) ++ strip s ++ (r1 ++ r))%string
    by (rewrite !str_app_assoc; reflexivity).
  apply strip_unique; [| | exact Ht]; unfold blank in *;
    rewrite all_chars_app; [rewrite Hl, Hl1 | rewrite Hr1, Hr]; reflexivity.
Qed.

(** X11. A threshold given as text is read without regard to case or to
    whitespace around it: two texts that differ only by the case of their
    letters and by blanks before and after are parsed alike, be it to the
    same number of hours or to the same refusal. *)
Theorem parse_threshold_ignores_case_and_padding :
  forall s1 s2 l r,
    blank l = true -> blank r = true -> lower s1 = lower s2 ->
    parse_threshold (PyStr (l ++ s1 ++ r)) = parse_threshold (PyStr s2).
Proof.
  intros s1 s2 l r Hl Hr Hcase. cbn [parse_threshold]. unfold parse_threshold_str.
  rewrite (strip_padding l s1 r Hl Hr), <- !strip_lower, Hcase. reflexivity.
Qed.

Lemma parse_threshold_ignores_case_and_padding_witness :
  parse_threshold (PyStr (" " ++ "1.5H" ++ "  ")) = parse_threshold (PyStr "1.5h").
Proof.
  exact (parse_threshold_ignores_case_and_padding "1.5H" "1.5h" " " "  "
           eq_refl eq_refl eq_refl).
Defined.

(** ** The wrapper *)

(** X12. [filter_alive] parses its threshold first: a threshold that
    [parse_threshold] refuses makes it raise that error without a request.
    Whenever it returns a list, the threshold was accepted as a number of
    hours that is not zero or below, and the list is a subsequence of the
    agents given. *)
Theorem filter_alive_outcomes :
  forall (Obj : Type) (shape : Obj -> agent) api mr bo getter drop
         (agents : list Obj) threshold w,
    (forall e,
        parse_threshold threshold = Raise e ->
        filter_alive shape api mr bo getter drop agents threshold w = (Raise e, w))
    /\ (forall l w',
           filter_alive shape api mr bo getter drop agents threshold w = (Ok l, w') ->
           subseq l agents
           /\ exists hours,
                parse_threshold threshold = Ok hours
                /\ F64.leb hours F64.zero = false
                /\ filter_alive_agents shape api mr bo getter drop agents
                     (PyFloat hours) w = (Ok l, w')).
Proof.
  intros Obj shape api mr bo getter drop agents threshold w.
  unfold filter_alive, bind, lift. split.
  - intros e He. rewrite He. reflexivity.
  - intros l w' H. destruct (parse_threshold threshold) as [hours | e];
      [| discriminate].
    pose proof H as Hcall.
    unfold filter_alive_agents, bind, lift in H. cbn [threshold_nonpositive] in H.
    destruct (F64.leb hours F64.zero) eqn:Epos; [discriminate |].
    destruct (threshold_window (PyFloat hours)) as [secs | e]; [| discriminate].
    apply filter_loop_returns in H as (Hl & _ & _).
    split; [rewrite Hl; apply select_subseq |].
    exists hours. auto.
Qed.

Lemma filter_alive_outcomes_witness :
  filter_alive (fun a => a) "https://pulse.example/" 3 float_half None true
    two_agents (PyStr "24x") registry_world
  = (Raise (ValueError msg_bad_pattern), registry_world).
Proof.
  exact (proj1 (filter_alive_outcomes agent (fun a => a) "https://pulse.example/" 3
                  float_half None true two_agents (PyStr "24x") registry_world)
           (ValueError msg_bad_pattern) eq_refl).
Defined.

(** ** Seconds and milliseconds *)

(** X13. For every instant later than 10,000,000 seconds and not later than
    10,000,000,000 seconds after the epoch, the timestamp normalises to the
    same number of seconds whether the server sends it in seconds or in
    milliseconds. Below 10,000,000 seconds the two forms differ: the value
    in milliseconds does not exceed the bound and is kept as it is. *)
Theorem timestamp_seconds_or_milliseconds :
  forall t r,
    0 <= r < 1000 ->
    (10000000 < t <= 10000000000 ->
     normalize_timestamp (PyInt t) = Some t
     /\ normalize_timestamp (PyInt (1000 * t + r)) = Some t)
    /\ (0 <= t < 10000000 ->
        normalize_timestamp (PyInt (1000 * t + r)) = Some (1000 * t + r)).
Proof.
  intros t r Hr. unfold normalize_timestamp, ms_bound. cbn [is_None py_int rbind or_else].
  split.
  - intros Ht. split.
    + destruct (t >? 10000000000) eqn:E; [| reflexivity].
      apply Z.gtb_lt in E. lia.
    + destruct (1000 * t + r >? 10000000000) eqn:E.
      * f_equal. symmetry. apply (Z.div_unique _ _ _ r); lia.
      * rewrite Z.gtb_ltb in E. apply Z.ltb_ge in E. lia.
  - intros Ht. destruct (1000 * t + r >? 10000000000) eqn:E; [| reflexivity].
    apply Z.gtb_lt in E. lia.
Qed.

Lemma timestamp_seconds_or_milliseconds_witness :
  normalize_timestamp (PyInt 1700000000) = Some 1700000000
  /\ normalize_timestamp (PyInt (1000 * 1700000000 + 321)) = Some 1700000000.
Proof.
  apply (proj1 (timestamp_seconds_or_milliseconds 1700000000 321 ltac:(lia))). lia.
Defined.

(** ** Extraction, then status *)

(** X14. The address the extractor returns is already in normal form, so the
    second normalisation, inside [get_agent_status], changes nothing: the
    requests go to the status URL of that very address, and a status that
    comes back carries it. *)
Theorem extracted_address_is_requested :
  forall a addr base mr bo w,
    _get_agent_address a = Ok addr ->
    _normalize_address addr = Ok addr
    /\ (exists l,
           snd (get_agent_status addr base mr bo w) = extend w l
           /\ only_url (status_url base addr) l = true)
    /\ (forall st w',
           get_agent_status addr base mr bo w = (Ok st, w') -> address st = addr).
Proof.
  intros a addr base mr bo w Ha.
  assert (Hn : _normalize_address addr = Ok addr).
  { apply normal_is_fixed.
    destruct a as [s | d | attrs].
    - exact (normalized_is_normal _ _ Ha).
    - rewrite get_agent_address_probe in Ha by reflexivity.
      destruct (probe _ address_keys); [| discriminate].
      exact (normalized_is_normal _ _ Ha).
    - rewrite get_agent_address_probe in Ha by reflexivity.
      destruct (probe _ address_keys); [| discriminate].
      exact (normalized_is_normal _ _ Ha). }
  split; [exact Hn | split].
  - destruct (get_agent_status_history addr base mr bo w addr Hn) as (l & Hw & Hu & _).
    exists l. auto.
  - intros st w' H. unfold get_agent_status, bind, lift in H. rewrite Hn in H.
    destruct (_http_get_json (status_url base addr) mr bo w) as [[p | e] w1];
      [| discriminate].
    destruct p; simpl in H; try discriminate. inversion H. reflexivity.
Qed.

Lemma extracted_address_is_requested_witness :
  _normalize_address "0xbb" = Ok "0xbb"
  /\ (exists l,
         snd (get_agent_status "0xbb" "https://pulse.example/" 3 float_half
                registry_world) = extend registry_world l
         /\ only_url (status_url "https://pulse.example/" "0xbb") l = true)
  /\ (forall st w',
         get_agent_status "0xbb" "https://pulse.example/" 3 float_half registry_world
         = (Ok st, w') -> address st = "0xbb").
Proof.
  exact (extracted_address_is_requested (AgentDict [("address", PyStr " 0xBB")])
           "0xbb" "https://pulse.example/" 3 float_half registry_world eq_refl).
Defined.
